(** * rate-my-school: the survey form's submit protocol and the school list

    A shallow embedding of
      - [src/components/Form.vue] (the [<script setup>] part: [schema],
        [state], [errors], [onSubmit], [setRating]), and
      - [src/utils/data-clean.ts] ([filteredData], [schoolNames]),
    together with the parts of the two libraries the form calls into:
    zod 3 (the validators the schema is built from, [parse], [ZodError],
    the default error messages) and uuid ([v4]).

    JavaScript objects are finite maps from property names to values
    ([gmap string JsVal]); a property that is missing reads as
    [undefined].  A JavaScript number is an IEEE double: [NaN], one of
    the two infinities, or a finite value, which is a rational.  The
    schema only ever compares a number with the integer bounds 1 and 5,
    and those comparisons are exact, so the finite values are kept as
    rationals ([Q]). *)

From Stdlib Require Import QArith Ascii String.
From stdpp Require Import gmap strings list fin_maps pretty.

Close Scope Q_scope.
Open Scope string_scope.

(** ** JavaScript values *)

Inductive JsNumber : Type :=
  | NaN
  | PosInfinity
  | NegInfinity
  | Finite (q : Q).

(** Values that are neither primitives nor plain data for this form;
    the schema rejects them all by their type alone. *)
Inductive RefKind : Type :=
  | KArray | KObject | KFunction | KDate | KMap | KSet | KPromise
  | KBigint | KSymbol.

Inductive JsVal : Type :=
  | VUndefined
  | VNull
  | VBool (b : bool)
  | VNum (n : JsNumber)
  | VStr (s : string)
  | VRef (k : RefKind).

(** [obj[key]]: a missing property reads as [undefined]. *)
Definition get (obj : gmap string JsVal) (key : string) : JsVal :=
  default VUndefined (obj !! key).

Definition of_Z (z : Z) : JsNumber := Finite (inject_Z z).

(** [a < b] and [a > b] for a double [a] that is not [NaN] and an
    integer literal [b]. *)
Definition num_lt (a : JsNumber) (b : Z) : bool :=
  match a with
  | NaN => false
  | PosInfinity => false
  | NegInfinity => true
  | Finite q => match Qcompare q (inject_Z b) with Lt => true | _ => false end
  end.

Definition num_gt (a : JsNumber) (b : Z) : bool :=
  match a with
  | NaN => false
  | PosInfinity => true
  | NegInfinity => false
  | Finite q => match Qcompare q (inject_Z b) with Gt => true | _ => false end
  end.

(** ** zod 3: parsed types, issues, validators *)

Module Zod.

Inductive ZodParsedType : Type :=
  | t_string | t_nan | t_number | t_boolean | t_undefined | t_null
  | t_array | t_object | t_function | t_date | t_map | t_set
  | t_promise | t_bigint | t_symbol.

Definition getParsedType (data : JsVal) : ZodParsedType :=
  match data with
  | VUndefined => t_undefined
  | VNull => t_null
  | VBool _ => t_boolean
  | VNum NaN => t_nan
  | VNum _ => t_number
  | VStr _ => t_string
  | VRef KArray => t_array
  | VRef KObject => t_object
  | VRef KFunction => t_function
  | VRef KDate => t_date
  | VRef KMap => t_map
  | VRef KSet => t_set
  | VRef KPromise => t_promise
  | VRef KBigint => t_bigint
  | VRef KSymbol => t_symbol
  end.

Definition type_name (t : ZodParsedType) : string :=
  match t with
  | t_string => "string" | t_nan => "nan" | t_number => "number"
  | t_boolean => "boolean" | t_undefined => "undefined" | t_null => "null"
  | t_array => "array" | t_object => "object" | t_function => "function"
  | t_date => "date" | t_map => "map" | t_set => "set"
  | t_promise => "promise" | t_bigint => "bigint" | t_symbol => "symbol"
  end.

Inductive ZodIssueCode : Type :=
  | invalid_type | invalid_enum_value | too_small | too_big.

Record ZodIssue : Type := mkIssue {
  code : ZodIssueCode;
  path : list string;
  message : string
}.

(** The default error map for [invalid_type]. *)
Definition invalid_type_issue (expected : string) (received : ZodParsedType)
    (p : list string) : ZodIssue :=
  mkIssue invalid_type p
    (match received with
     | t_undefined => "Required"
     | _ => "Expected " ++ expected ++ ", received " ++ type_name received
     end).

(** [util.joinValues(values)]: each value quoted, separated by [" | "]. *)
Definition joinValues (values : list string) : string :=
  String.concat " | " (map (fun v => "'" ++ v ++ "'") values).

(** A check carries the bound and the message given at the call site,
    if one was given. *)
Inductive StringCheck : Type :=
  | str_min (value : nat) (msg : option string).

Inductive NumberCheck : Type :=
  | num_min (value : Z) (msg : option string)
  | num_max (value : Z) (msg : option string).

Inductive ZodType : Type :=
  | ZodString (checks : list StringCheck)
  | ZodNumber (checks : list NumberCheck)
  | ZodBoolean
  | ZodEnum (values : list string)
  | ZodOptional (inner : ZodType).

(** The builders used by the form's schema. *)
Definition string : ZodType := ZodString [].
Definition number : ZodType := ZodNumber [].
Definition boolean : ZodType := ZodBoolean.
Definition enum (values : list String.string) : ZodType := ZodEnum values.
Definition optional (t : ZodType) : ZodType := ZodOptional t.

(** [.nonempty(message)] is [.min(1, message)]. *)
Definition nonempty (message : String.string) (t : ZodType) : ZodType :=
  match t with
  | ZodString checks => ZodString (checks ++ [str_min 1 (Some message)])
  | _ => t
  end.

Definition min (value : Z) (t : ZodType) : ZodType :=
  match t with
  | ZodNumber checks => ZodNumber (checks ++ [num_min value None])
  | _ => t
  end.

Definition max (value : Z) (t : ZodType) : ZodType :=
  match t with
  | ZodNumber checks => ZodNumber (checks ++ [num_max value None])
  | _ => t
  end.

Definition string_check (s : String.string) (p : list String.string)
    (c : StringCheck) : list ZodIssue :=
  match c with
  | str_min value msg =>
      if (String.length s <? value)%nat
      then [mkIssue too_small p
              (default ("String must contain at least " ++ pretty value
                        ++ " character(s)") msg)]
      else []
  end.

Definition number_check (n : JsNumber) (p : list String.string)
    (c : NumberCheck) : list ZodIssue :=
  match c with
  | num_min value msg =>
      if num_lt n value
      then [mkIssue too_small p
              (default ("Number must be greater than or equal to "
                        ++ pretty value) msg)]
      else []
  | num_max value msg =>
      if num_gt n value
      then [mkIssue too_big p
              (default ("Number must be less than or equal to "
                        ++ pretty value) msg)]
      else []
  end.

(** [t._parse(input)]: the issues added to the context for the value
    [data] found at path [p].  A type mismatch adds one issue and
    aborts; otherwise every check of the validator is run.  When no
    issue is added, each of these validators returns its input as it
    is, so the parsed value is [data] itself. *)
Fixpoint _parse (t : ZodType) (p : list String.string) (data : JsVal)
    : list ZodIssue :=
  match t with
  | ZodString checks =>
      match data with
      | VStr s => flat_map (string_check s p) checks
      | _ => [invalid_type_issue "string" (getParsedType data) p]
      end
  | ZodNumber checks =>
      match data with
      | VNum NaN => [invalid_type_issue "number" t_nan p]
      | VNum n => flat_map (number_check n p) checks
      | _ => [invalid_type_issue "number" (getParsedType data) p]
      end
  | ZodBoolean =>
      match data with
      | VBool _ => []
      | _ => [invalid_type_issue "boolean" (getParsedType data) p]
      end
  | ZodEnum values =>
      match data with
      | VStr s =>
          if bool_decide (s ∈ values) then []
          else [mkIssue invalid_enum_value p
                  ("Invalid enum value. Expected " ++ joinValues values
                   ++ ", received '" ++ s ++ "'")]
      | _ => [invalid_type_issue (joinValues values) (getParsedType data) p]
      end
  | ZodOptional inner =>
      match data with
      | VUndefined => []
      | _ => _parse inner p data
      end
  end.

(** [z.object(shape)]: the keys of the shape are visited in the order
    they were written, every one of them, and their issues are
    collected in that order. *)
Definition object_issues (shape : list (String.string * ZodType))
    (data : gmap String.string JsVal) : list ZodIssue :=
  flat_map (fun kt => _parse kt.2 [kt.1] (get data kt.1)) shape.

(** The object returned on success: a new object with the shape's keys
    that the input has (unknown keys are stripped). *)
Definition object_value (shape : list (String.string * ZodType))
    (data : gmap String.string JsVal) : gmap String.string JsVal :=
  foldl (fun acc kt =>
           match data !! kt.1 with
           | Some v => <[kt.1 := v]> acc
           | None => acc
           end) ∅ shape.

End Zod.

(** ** uuid: [v4]

    [v4()] asks the random source for 16 bytes, stamps the version and
    variant bits into bytes 6 and 8 and prints the bytes as 32 lower-case
    hexadecimal digits in groups of 8-4-4-4-12.  It throws when the
    random source does (no [crypto.getRandomValues]). *)

Module Uuid.

Definition hex_digit (d : Z) : ascii :=
  match d with
  | 0 => "0" | 1 => "1" | 2 => "2" | 3 => "3" | 4 => "4" | 5 => "5"
  | 6 => "6" | 7 => "7" | 8 => "8" | 9 => "9" | 10 => "a" | 11 => "b"
  | 12 => "c" | 13 => "d" | 14 => "e" | _ => "f"
  end%Z%char.

(** [byteToHex[b]], that is [(b + 0x100).toString(16).slice(1)]. *)
Definition byteToHex (b : Z) : string :=
  let b := (b mod 256)%Z in
  String (hex_digit (b / 16)) (String (hex_digit (b mod 16)) "").

(** A [Uint8Array] read at an index. *)
Definition byte_at (arr : list Z) (i : nat) : Z := nth i arr 0%Z.

Definition unsafeStringify (arr : list Z) : string :=
  byteToHex (byte_at arr 0) ++ byteToHex (byte_at arr 1) ++
  byteToHex (byte_at arr 2) ++ byteToHex (byte_at arr 3) ++ "-" ++
  byteToHex (byte_at arr 4) ++ byteToHex (byte_at arr 5) ++ "-" ++
  byteToHex (byte_at arr 6) ++ byteToHex (byte_at arr 7) ++ "-" ++
  byteToHex (byte_at arr 8) ++ byteToHex (byte_at arr 9) ++ "-" ++
  byteToHex (byte_at arr 10) ++ byteToHex (byte_at arr 11) ++
  byteToHex (byte_at arr 12) ++ byteToHex (byte_at arr 13) ++
  byteToHex (byte_at arr 14) ++ byteToHex (byte_at arr 15).

(** [rnds[6] = (rnds[6] & 0x0f) | 0x40; rnds[8] = (rnds[8] & 0x3f) | 0x80] *)
Definition stamp (rnds : list Z) : list Z :=
  let rnds := <[6%nat := Z.lor (Z.land (byte_at rnds 6) 15) 64]> rnds in
  <[8%nat := Z.lor (Z.land (byte_at rnds 8) 63) 128]> rnds.

(** The [Uint8Array(16)] the random source fills: always 16 entries. *)
Definition Uint8Array16 (src : list Z) : list Z :=
  take 16 (map (fun b => b mod 256)%Z src ++ replicate 16 0%Z).

Definition v4_of (src : list Z) : string :=
  unsafeStringify (stamp (Uint8Array16 src)).

End Uuid.

(** ** The form: [src/components/Form.vue] *)

Definition schema : list (string * Zod.ZodType) :=
  [ ("uniqueId", Zod.optional Zod.string);
    ("schoolName", Zod.nonempty "School name is required" Zod.string);
    ("sex", Zod.optional (Zod.enum ["male"; "female"; "prefer not to say"; ""]));
    ("nationality", Zod.nonempty "Nationality is required" Zod.string);
    ("currentStudent", Zod.boolean);
    ("yearOfStudy", Zod.optional Zod.string);
    ("nameOfStudy", Zod.optional Zod.string);
    ("qualityOfTeaching", Zod.optional (Zod.max 5 (Zod.min 1 Zod.number)));
    ("safety", Zod.optional (Zod.max 5 (Zod.min 1 Zod.number)));
    ("location", Zod.optional (Zod.max 5 (Zod.min 1 Zod.number)));
    ("socialEvents", Zod.optional (Zod.max 5 (Zod.min 1 Zod.number)));
    ("facilities", Zod.optional (Zod.max 5 (Zod.min 1 Zod.number)));
    ("courseContent", Zod.optional (Zod.max 5 (Zod.min 1 Zod.number)));
    ("housingAndAccommodation", Zod.optional (Zod.max 5 (Zod.min 1 Zod.number)));
    ("internationalFocus", Zod.optional (Zod.max 5 (Zod.min 1 Zod.number)));
    ("mentalHealthAndWellnessServices",
       Zod.optional (Zod.max 5 (Zod.min 1 Zod.number)));
    ("careerServicesAndInternshipOpportunities",
       Zod.optional (Zod.max 5 (Zod.min 1 Zod.number)));
    ("additionalComments", Zod.optional Zod.string) ].

(** The initial value of [state]: every key of the schema is there, the
    ratings hold [undefined]. *)
Definition initial_state : gmap string JsVal :=
  list_to_map
    [ ("uniqueId", VStr ""); ("schoolName", VStr ""); ("sex", VStr "");
      ("nationality", VStr ""); ("currentStudent", VBool false);
      ("yearOfStudy", VStr ""); ("nameOfStudy", VStr "");
      ("qualityOfTeaching", VUndefined); ("safety", VUndefined);
      ("location", VUndefined); ("socialEvents", VUndefined);
      ("facilities", VUndefined); ("courseContent", VUndefined);
      ("housingAndAccommodation", VUndefined);
      ("internationalFocus", VUndefined);
      ("mentalHealthAndWellnessServices", VUndefined);
      ("careerServicesAndInternshipOpportunities", VUndefined);
      ("additionalComments", VStr "") ].

(** What the component owns and what it can touch: the two refs, the
    events it has emitted to its parent, what it wrote to the console,
    and how many times it has called the identifier generator. *)
Record World : Type := mkWorld {
  state : gmap string JsVal;
  errors : gmap string string;
  emitted : list (string * gmap string JsVal);
  console : list (string * gmap string string);
  uuid_calls : nat
}.

Definition initial_world : World :=
  mkWorld initial_state ∅ [] [] 0.

(** What a [throw] carries. *)
Inductive JsError : Type :=
  | ZodError (issues : list Zod.ZodIssue)
  | OtherError (what : string).

(** How a piece of code ends: it returns, or an exception leaves it. *)
Inductive Completion (A : Type) : Type :=
  | Returns (a : A)
  | Throws (e : JsError).
Arguments Returns {A} a.
Arguments Throws {A} e.

(** Code that runs on the world and returns or throws. *)
Definition Js (A : Type) : Type := World -> Completion A * World.

Definition ret {A} (a : A) : Js A := fun w => (Returns a, w).

Definition throw {A} (e : JsError) : Js A := fun w => (Throws e, w).

Definition bind {A B} (m : Js A) (k : A -> Js B) : Js B :=
  fun w =>
    match m w with
    | (Returns a, w') => k a w'
    | (Throws e, w') => (Throws e, w')
    end.

(** [try { body } catch (error) { handler }]: the changes [body] made
    before it threw stay. *)
Definition try_catch {A} (body : Js A) (handler : JsError -> Js A) : Js A :=
  fun w =>
    match body w with
    | (Returns a, w') => (Returns a, w')
    | (Throws e, w') => handler e w'
    end.

#[export] Instance Js_ret : MRet Js := @ret.
#[export] Instance Js_bind : MBind Js := fun A B k m => bind m k.

Definition modify (f : World -> World) : Js unit :=
  fun w => (Returns tt, f w).

Definition read {A} (f : World -> A) : Js A :=
  fun w => (Returns (f w), w).

(** [state.value[key] = v] *)
Definition set_state (key : string) (v : JsVal) : Js unit :=
  modify (fun w =>
    mkWorld (<[key := v]> (state w)) (errors w) (emitted w) (console w)
            (uuid_calls w)).

(** [errors.value = e] *)
Definition set_errors (e : gmap string string) : Js unit :=
  modify (fun w =>
    mkWorld (state w) e (emitted w) (console w) (uuid_calls w)).

(** [emit(event, data)] *)
Definition emit (event : string) (data : gmap string JsVal) : Js unit :=
  modify (fun w =>
    mkWorld (state w) (errors w) (emitted w ++ [(event, data)]) (console w)
            (uuid_calls w)).

(** [console.error(label, e)] *)
Definition console_error (label : string) (e : gmap string string) : Js unit :=
  modify (fun w =>
    mkWorld (state w) (errors w) (emitted w) (console w ++ [(label, e)])
            (uuid_calls w)).

(** [schema.parse(data)]: the parsed object, or a thrown [ZodError] with
    all the issues found. *)
Definition schema_parse (data : gmap string JsVal) : Js (gmap string JsVal) :=
  match Zod.object_issues schema data with
  | [] => ret (Zod.object_value schema data)
  | issues => throw (ZodError issues)
  end.

(** [curr.path[0] as keyof Schema]: used as a property name, so an empty
    path gives the key ["undefined"]. *)
Definition path0 (curr : Zod.ZodIssue) : string :=
  match Zod.path curr with
  | [] => "undefined"
  | k :: _ => k
  end.

(** [error.errors.reduce((acc, curr) => { acc[path] = curr.message; return acc }, {})] *)
Definition reduce_errors (issues : list Zod.ZodIssue) : gmap string string :=
  foldl (fun acc curr => <[path0 curr := Zod.message curr]> acc) ∅ issues.

Section Form.

(** The random source behind [uuidv4]: what its [n]-th call gives, 16
    bytes or ([None]) an exception. *)
Variable rng : nat -> option (list Z).

Definition uuidv4 : Js string :=
  fun w =>
    let w' := mkWorld (state w) (errors w) (emitted w) (console w)
                      (S (uuid_calls w)) in
    match rng (uuid_calls w) with
    | Some rnds => (Returns (Uuid.v4_of rnds), w')
    | None => (Throws (OtherError "crypto.getRandomValues() not supported"), w')
    end.

(** [onSubmit].  [event.preventDefault()] acts on the browser's event
    only and is left out.  The [catch] clause takes every exception;
    it has a branch for [ZodError] and none for anything else, and it
    does not throw again. *)
Definition onSubmit : Js unit :=
  try_catch
    (uniqueID ← uuidv4;
     set_state "uniqueId" (VStr uniqueID);;
     validatedData ← (read state ≫= schema_parse);
     emit "formSubmitted" validatedData)
    (fun error =>
       match error with
       | ZodError issues =>
           set_errors (reduce_errors issues);;
           e ← read errors;
           console_error "Validation Errors:" e
       | OtherError _ => ret tt
       end).

(** [setRating(field, value)] *)
Definition setRating (field : string) (value : JsNumber) : Js unit :=
  set_state field (VNum value).

(** What can happen to the form between mount and teardown: a star is
    clicked, a bound control writes its value into the draft, or the
    form is submitted. *)
Inductive Action : Type :=
  | ASetRating (field : string) (value : JsNumber)
  | AUpdateField (field : string) (value : JsVal)
  | ASubmit.

Definition step (a : Action) : Js unit :=
  match a with
  | ASetRating field value => setRating field value
  | AUpdateField field value => set_state field value
  | ASubmit => onSubmit
  end.

(** Event handlers run one after the other; an exception that leaves a
    handler does not stop the next event from being handled. *)
Fixpoint session (acts : list Action) (w : World) : World :=
  match acts with
  | [] => w
  | a :: acts' => session acts' (step a w).2
  end.

End Form.

(** ** The school list: [src/utils/data-clean.ts] *)

(** A record of [~/data/schools.json]; the dataset itself is a parameter
    of the two functions. *)
Record School : Type := mkSchool {
  INSTELLINGSNAAM : JsVal;
  SOORT_HO : JsVal;
  PROVINCIE : JsVal;
  STRAATNAAM : JsVal;
  HUISNUMMER_TOEVOEGING : JsVal;
  POSTCODE : JsVal;
  PLAATSNAAM : JsVal;
  INTERNETADRES : JsVal;
  BEVOEGD_GEZAG_NUMMER : JsVal
}.

Record FilteredSchool : Type := mkFiltered {
  schoolname : JsVal;
  schooltype : JsVal;
  province : JsVal;
  streetName : JsVal;
  houseNumber : JsVal;
  postalCode : JsVal;
  city : JsVal;
  website : JsVal;
  uniqueId : JsVal
}.

Definition filteredData (schools : list School) : list FilteredSchool :=
  map (fun school =>
         {| schoolname := INSTELLINGSNAAM school;
            schooltype := SOORT_HO school;
            province := PROVINCIE school;
            streetName := STRAATNAAM school;
            houseNumber := HUISNUMMER_TOEVOEGING school;
            postalCode := POSTCODE school;
            city := PLAATSNAAM school;
            website := INTERNETADRES school;
            uniqueId := BEVOEGD_GEZAG_NUMMER school |}) schools.

Definition schoolNames (schools : list School) : list JsVal :=
  map (fun school => INSTELLINGSNAAM school) schools.

(** * The vocabulary of the properties *)

(** ** Validity of a draft, field by field *)

(** The validator of each of the ten rating fields. *)
Definition rating : Zod.ZodType :=
  Zod.optional (Zod.max 5 (Zod.min 1 Zod.number)).

(** A double between 1 and 5. *)
Definition in_range (n : JsNumber) : Prop :=
  match n with
  | Finite q => (1 <= q)%Q /\ (q <= 5)%Q
  | _ => False
  end.

(** [schema.parse(d)] returns. *)
Definition accepts (d : gmap string JsVal) : Prop :=
  Zod.object_issues schema d = [].

(** [schema.parse(d)] throws. *)
Definition fails_validation (d : gmap string JsVal) : Prop :=
  Zod.object_issues schema d <> [].

Definition rating_fields : list string :=
  [ "qualityOfTeaching"; "safety"; "location"; "socialEvents"; "facilities";
    "courseContent"; "housingAndAccommodation"; "internationalFocus";
    "mentalHealthAndWellnessServices";
    "careerServicesAndInternshipOpportunities" ].

Definition nonempty_string (v : JsVal) : Prop :=
  exists s, v = VStr s /\ s <> "".

Definition is_boolean (v : JsVal) : Prop := exists b, v = VBool b.

(** A field is present when it holds something other than [undefined]
    (a key that is missing reads as [undefined]). *)
Definition present (v : JsVal) : Prop := v <> VUndefined.

Definition is_integer (q : Q) : Prop := exists z : Z, (q == inject_Z z)%Q.

Definition number_in_1_5 (v : JsVal) : Prop :=
  exists q, v = VNum (Finite q) /\ (1 <= q)%Q /\ (q <= 5)%Q.

Definition integer_in_1_5 (v : JsVal) : Prop :=
  exists q, v = VNum (Finite q) /\ is_integer q /\ (1 <= q)%Q /\ (q <= 5)%Q.

(** Validity with integer ratings, and with nothing asked of the other
    fields. *)
Definition valid_with_integer_ratings (d : gmap string JsVal) : Prop :=
  nonempty_string (get d "schoolName") /\
  nonempty_string (get d "nationality") /\
  is_boolean (get d "currentStudent") /\
  forall f, f ∈ rating_fields -> present (get d f) -> integer_in_1_5 (get d f).

(** The rule of each field as the schema has it. *)
Inductive FieldRule : Type :=
  | required_nonempty_string
  | required_boolean
  | optional_string
  | optional_sex
  | optional_rating.

Definition rule_ok (r : FieldRule) (v : JsVal) : Prop :=
  match r with
  | required_nonempty_string => nonempty_string v
  | required_boolean => is_boolean v
  | optional_string => present v -> exists s, v = VStr s
  | optional_sex =>
      present v ->
      exists s, v = VStr s /\ s ∈ ["male"; "female"; "prefer not to say"; ""]
  | optional_rating => present v -> number_in_1_5 v
  end.

Definition data_model : list (string * FieldRule) :=
  [ ("uniqueId", optional_string);
    ("schoolName", required_nonempty_string);
    ("sex", optional_sex);
    ("nationality", required_nonempty_string);
    ("currentStudent", required_boolean);
    ("yearOfStudy", optional_string);
    ("nameOfStudy", optional_string);
    ("qualityOfTeaching", optional_rating);
    ("safety", optional_rating);
    ("location", optional_rating);
    ("socialEvents", optional_rating);
    ("facilities", optional_rating);
    ("courseContent", optional_rating);
    ("housingAndAccommodation", optional_rating);
    ("internationalFocus", optional_rating);
    ("mentalHealthAndWellnessServices", optional_rating);
    ("careerServicesAndInternshipOpportunities", optional_rating);
    ("additionalComments", optional_string) ].

Definition draft_valid (d : gmap string JsVal) : Prop :=
  forall f r, (f, r) ∈ data_model -> rule_ok r (get d f).

(** Every field outside [skip] passes its validator. *)
Definition others_valid (skip : list string) (d : gmap string JsVal) : Prop :=
  forall k t, (k, t) ∈ schema -> k ∉ skip ->
              Zod._parse t [k] (get d k) = [].

Definition is_whitespace (c : ascii) : bool :=
  bool_decide (nat_of_ascii c ∈ [9; 10; 11; 12; 13; 32]).

Definition whitespace_only (s : string) : Prop :=
  s <> "" /\ Forall (fun c => is_whitespace c = true) (list_ascii_of_string s).

(** ** Submissions and sessions *)

(** The draft as [schema.parse] sees it: the fresh identifier is already
    in place. *)
Definition with_id (rnds : list Z) (d : gmap string JsVal) : gmap string JsVal :=
  <["uniqueId" := VStr (Uuid.v4_of rnds)]> d.

(** The draft is accepted and [onSubmit] emits the parsed record, which
    holds the validated draft's value at every field of the schema and
    nothing else. *)
Definition emits_record (rng : nat -> option (list Z)) (w : World)
    (rnds : list Z) : Prop :=
  accepts (with_id rnds (state w)) /\
  emitted (onSubmit rng w).2 =
    (emitted w ++
       [("formSubmitted", Zod.object_value schema (with_id rnds (state w)))])%list /\
  forall k,
    Zod.object_value schema (with_id rnds (state w)) !! k =
      if decide (k ∈ schema.*1) then with_id rnds (state w) !! k else None.

(** The identifiers of the records emitted so far, oldest first. *)
Definition emitted_ids (w : World) : list JsVal :=
  map (fun e => get e.2 "uniqueId") (emitted w).

(** The generator never returns the same token twice. *)
Definition never_repeats (rng : nat -> option (list Z)) : Prop :=
  forall i j ri rj,
    i <> j -> rng i = Some ri -> rng j = Some rj ->
    Uuid.v4_of ri <> Uuid.v4_of rj.

(** The identifier [id] is the token of the generator's call number [k]. *)
Definition token_of (rng : nat -> option (list Z)) (id : JsVal) (k : nat) : Prop :=
  exists r, rng k = Some r /\ id = VStr (Uuid.v4_of r).

(** Each emitted record carries the token of a call of its own, and all
    those calls have been made. *)
Definition issued_by (rng : nat -> option (list Z)) (w : World)
    (ks : list nat) : Prop :=
  NoDup ks /\ Forall (fun k => k < uuid_calls w) ks /\
  Forall2 (token_of rng) (emitted_ids w) ks.

(** ** Test data *)

(** Scenario A: a school, a nationality, nothing else touched. *)
Definition acme_draft : gmap string JsVal :=
  <["schoolName" := VStr "Acme University"]>
    (<["nationality" := VStr "Dutch"]> initial_state).

(** Scenario: a current student who filled in neither study field. *)
Definition current_student_draft : gmap string JsVal :=
  <["currentStudent" := VBool true]> acme_draft.

(** Scenario: a single space as school name, a tab and a space as
    nationality. *)
Definition blank_names_draft : gmap string JsVal :=
  <["schoolName" := VStr " "]>
    (<["nationality" := VStr (String "009" " ")]> initial_state).

(** A world with a valid draft and an error left by an earlier attempt. *)
Definition stale_world : World :=
  mkWorld acme_draft {["schoolName" := "School name is required"]} [] [] 0.

(** A random source that serves three calls and then fails. *)
Definition three_calls (n : nat) : option (list Z) :=
  if (n <? 3)%nat then Some [Z.of_nat n; 255%Z] else None.

(** A random source that fails at once. *)
Definition broken_rng (n : nat) : option (list Z) := None.

(** A session: the two required fields are filled in, the form is
    submitted, a star is clicked, the form is submitted again. *)
Definition two_submissions : list Action :=
  [ AUpdateField "schoolName" (VStr "Acme University");
    AUpdateField "nationality" (VStr "Dutch");
    ASubmit;
    ASetRating "safety" (of_Z 4);
    ASubmit ].

(** * The template of [src/components/Form.vue] *)

(** ** The controls

    What the user can do with the rendered form.  A [<select>] bound with
    [v-model] writes the value of the chosen [<option>] into its field; a
    text control writes the string typed; the checkbox writes its checked
    state; a star calls [setRating] with its own field and its number
    [n] of [v-for="n in 5"]; the button submits.  The two study controls
    are rendered only while [state.currentStudent] is truthy; here their
    events are allowed at any time, which covers every trace the rendered
    form admits. *)

Inductive UiEvent : Type :=
  | PickSchool (option_index : nat)
  | PickSex (option_index : nat)
  | PickNationality (option_index : nat)
  | ToggleCurrentStudent (checked : bool)
  | PickYearOfStudy (option_index : nat)
  | TypeNameOfStudy (text : string)
  | ClickStar (field : string) (n : nat)
  | TypeAdditionalComments (text : string)
  | PressSubmit.

(** The options of the school select: a blank one, then one per school. *)
Definition school_options (schools : list School) : list JsVal :=
  VStr "" :: schoolNames schools.

Definition sex_options : list JsVal :=
  [VStr "male"; VStr "female"; VStr "prefer not to say"].

Definition yearOfStudy_options : list JsVal :=
  [VStr "1"; VStr "2"; VStr "3"; VStr "4"; VStr "5"; VStr "6"; VStr "7";
   VStr "8"].

(** The ten fields that have a row of stars. *)
Definition star_fields : list string :=
  [ "qualityOfTeaching"; "safety"; "location"; "socialEvents"; "facilities";
    "courseContent"; "housingAndAccommodation"; "internationalFocus";
    "mentalHealthAndWellnessServices";
    "careerServicesAndInternshipOpportunities" ].

(** Choosing the option number [i] of a select bound to [key]; there is
    nothing to choose beyond the last option. *)
Definition pick (key : string) (options : list JsVal) (i : nat) : Js unit :=
  match options !! i with
  | Some v => set_state key v
  | None => ret tt
  end.

(** The checkbox bound to [state.currentStudent].  When the bound value
    is an array or a set, Vue updates that collection and the field stays
    a collection; otherwise the checked state is assigned. *)
Definition toggle (key : string) (checked : bool) : Js unit :=
  fun w =>
    match get (state w) key with
    | VRef KArray | VRef KSet => (Returns tt, w)
    | _ => set_state key (VBool checked) w
    end.

Section Template.

Variable rng : nat -> option (list Z).

(** The two datasets the template iterates over:
    [~/data/schools.json] and [~/data/nationalities]. *)
Variable schools : list School.
Variable nationalities : list JsVal.

Definition handle (ev : UiEvent) : Js unit :=
  match ev with
  | PickSchool i => pick "schoolName" (school_options schools) i
  | PickSex i => pick "sex" sex_options i
  | PickNationality i => pick "nationality" nationalities i
  | ToggleCurrentStudent checked => toggle "currentStudent" checked
  | PickYearOfStudy i => pick "yearOfStudy" yearOfStudy_options i
  | TypeNameOfStudy text => set_state "nameOfStudy" (VStr text)
  | ClickStar field n =>
      if bool_decide (field ∈ star_fields) && (1 <=? n)%nat && (n <=? 5)%nat
      then setRating field (of_Z (Z.of_nat n))
      else ret tt
  | TypeAdditionalComments text => set_state "additionalComments" (VStr text)
  | PressSubmit => onSubmit rng
  end.

Fixpoint use_form (evs : list UiEvent) (w : World) : World :=
  match evs with
  | [] => w
  | ev :: evs' => use_form evs' (handle ev w).2
  end.

End Template.

(** ** The stars

    A rating field is declared [number | undefined]; [None] stands for
    [undefined].  Comparing a number with [undefined] or with [NaN] is
    false whichever way it is written. *)

(** [r ?? 0] *)
Definition or_zero (r : option JsNumber) : JsNumber :=
  match r with
  | Some x => x
  | None => of_Z 0
  end.

(** [n <= x] and [n > x] for the star number [n] and a double [x]. *)
Definition star_le (n : Z) (x : JsNumber) : bool :=
  match x with
  | NaN => false
  | _ => negb (num_lt x n)
  end.

Definition star_gt (n : Z) (x : JsNumber) : bool := num_lt x n.

(** [n <= state.field], where the field may be [undefined]. *)
Definition star_le_field (n : Z) (r : option JsNumber) : bool :=
  match r with
  | Some x => star_le n x
  | None => false
  end.

(** How the [:class] of a field's stars is written: as an object with
    the two classes as keys, or as a conditional with the given class in
    its else branch. *)
Inductive StarBinding : Type :=
  | class_object
  | class_conditional (otherwise : string).

Definition star_bindings : list (string * StarBinding) :=
  [ ("qualityOfTeaching", class_object);
    ("safety", class_conditional "text-gray-300");
    ("location", class_conditional "text-gray-300");
    ("socialEvents", class_conditional "text-gray-100");
    ("facilities", class_conditional "text-gray-100");
    ("courseContent", class_conditional "text-gray-100");
    ("housingAndAccommodation", class_conditional "text-gray-100");
    ("internationalFocus", class_conditional "text-gray-100");
    ("mentalHealthAndWellnessServices", class_conditional "text-gray-100");
    ("careerServicesAndInternshipOpportunities",
       class_conditional "text-gray-100") ].

(** The classes the binding puts on star number [n]. *)
Definition star_classes (b : StarBinding) (n : Z) (r : option JsNumber)
    : list string :=
  match b with
  | class_object =>
      ((if star_le n (or_zero r) then ["text-yellow-500"] else []) ++
       (if star_gt n (or_zero r) then ["text-gray-300"] else []))%list
  | class_conditional otherwise =>
      [if star_le_field n r then "text-yellow-500" else otherwise]
  end.

(** The value of a rating field as its declared type sees it; [None]
    for a value outside [number | undefined]. *)
Definition as_rating (v : JsVal) : option (option JsNumber) :=
  match v with
  | VUndefined => Some None
  | VNum x => Some (Some x)
  | _ => None
  end.

(** The classes of star [n] of [field] for the draft [d]. *)
Definition star_of (d : gmap string JsVal) (field : string) (n : Z)
    : option (list string) :=
  match list_find (fun fb => fb.1 = field) star_bindings with
  | Some (_, (_, b)) => star_classes b n <$> as_rating (get d field)
  | None => None
  end.

(** ** More vocabulary *)

Definition is_submit (a : Action) : bool :=
  match a with
  | ASubmit => true
  | _ => false
  end.

Definition count_submits (acts : list Action) : nat :=
  length (filter (fun a => is_submit a = true) acts).

(** The fields [setRating] accepts by its type and that are neither a
    rating nor the identifier. *)
Definition other_fields : list string :=
  [ "schoolName"; "sex"; "nationality"; "currentStudent"; "yearOfStudy";
    "nameOfStudy"; "additionalComments" ].

(** Every field but the two required strings passes its validator. *)
Definition only_names_can_fail (d : gmap string JsVal) : Prop :=
  others_valid ["schoolName"; "nationality"] d.

(** The binding never gives the highlight class to a star that is off. *)
Definition not_yellow (b : StarBinding) : Prop :=
  match b with
  | class_object => True
  | class_conditional otherwise => otherwise <> "text-yellow-500"
  end.

(** What the controls of the form keep true. *)
Definition form_invariant (w : World) : Prop :=
  only_names_can_fail (state w) /\
  forall f, is_Some (errors w !! f) -> f = "schoolName" \/ f = "nationality".

(** A draft that carries a key the schema does not know. *)
Definition draft_with_extra_key : gmap string JsVal :=
  <["debug" := VBool true]> acme_draft.

(** A dataset with one school, a list with one nationality, and a
    visit to the form: a school and a nationality are picked, a star is
    clicked, the form is submitted. *)
Definition one_school : list School :=
  [ mkSchool (VStr "Acme University") (VStr "wo") (VStr "Utrecht")
      (VStr "Main Street") (VNum (of_Z 1)) (VStr "1234 AB") (VStr "Utrecht")
      (VStr "acme.example") (VNum (of_Z 7)) ].

Definition one_nationality : list JsVal := [VStr "Dutch"].

Definition a_visit : list UiEvent :=
  [PickSchool 1; PickNationality 0; ClickStar "safety" 4; PressSubmit].

(** * Properties *)

(** ** The validators, one by one *)

Lemma num_lt_false q (b : Z) :
  num_lt (Finite q) b = false <-> (inject_Z b <= q)%Q.
Proof.
  unfold num_lt. rewrite Qle_alt, <- (Qcompare_antisym q (inject_Z b)).
  destruct (q ?= inject_Z b)%Q; simpl; split; intros; congruence.
Qed.

Lemma num_gt_false q (b : Z) :
  num_gt (Finite q) b = false <-> (q <= inject_Z b)%Q.
Proof.
  unfold num_gt. rewrite Qle_alt.
  destruct (q ?= inject_Z b)%Q; simpl; split; intros; congruence.
Qed.

Lemma rating_finite p q :
  Zod._parse rating p (VNum (Finite q)) =
    if num_lt (Finite q) 1
    then [Zod.mkIssue Zod.too_small p "Number must be greater than or equal to 1"]
    else if num_gt (Finite q) 5
    then [Zod.mkIssue Zod.too_big p "Number must be less than or equal to 5"]
    else [].
Proof.
  cbn [rating Zod.optional Zod.max Zod.min Zod.number Zod._parse app flat_map
       Zod.number_check default].
  destruct (num_lt (Finite q) 1) eqn:Hlt, (num_gt (Finite q) 5) eqn:Hgt;
    try reflexivity.
  exfalso. unfold num_lt, num_gt in *.
  destruct (q ?= inject_Z 1)%Q eqn:H1; try discriminate.
  destruct (q ?= inject_Z 5)%Q eqn:H5; try discriminate.
  apply Qlt_alt in H1. apply Qgt_alt in H5.
  assert (inject_Z 5 < inject_Z 1)%Q as Habs by (eapply Qlt_trans; eauto).
  revert Habs. rewrite <- Zlt_Qlt. lia.
Qed.

Lemma rating_accepts p v :
  Zod._parse rating p v = [] <->
  v = VUndefined \/ exists n, v = VNum n /\ in_range n.
Proof.
  destruct v as [| |b|n|s|k]; try (split; [discriminate | intros [?|(?&?&?)]; discriminate]).
  - split; [auto | reflexivity].
  - destruct n as [| | |q].
    + split; [discriminate | intros [?|(?&[= <-]&[])]; discriminate].
    + split; [discriminate | intros [?|(?&[= <-]&[])]; discriminate].
    + split; [discriminate | intros [?|(?&[= <-]&[])]; discriminate].
    + rewrite rating_finite.
      destruct (num_lt (Finite q) 1) eqn:Hlt.
      { split; [discriminate|]. intros [?|(?&[= <-]&[H1 _])]; [discriminate|].
        apply (num_lt_false q 1) in H1. congruence. }
      destruct (num_gt (Finite q) 5) eqn:Hgt.
      { split; [discriminate|]. intros [?|(?&[= <-]&[_ H5])]; [discriminate|].
        apply (num_gt_false q 5) in H5. congruence. }
      split; [|reflexivity]. intros _. right. eexists; split; [reflexivity|].
      split; [by apply (num_lt_false q 1) | by apply (num_gt_false q 5)].
Qed.

Lemma nonempty_string_accepts msg p v :
  Zod._parse (Zod.nonempty msg Zod.string) p v = [] <->
  exists s, v = VStr s /\ s <> "".
Proof.
  destruct v as [| |b|n|s|k];
    try (split; [discriminate | intros (?&?&?); discriminate]).
  destruct s as [|c s]; cbn.
  - split; [discriminate | intros (?&[= <-]&?); congruence].
  - split; [|reflexivity]. intros _. eexists; split; [reflexivity | discriminate].
Qed.

Lemma optional_string_accepts p v :
  Zod._parse (Zod.optional Zod.string) p v = [] <->
  v = VUndefined \/ exists s, v = VStr s.
Proof.
  destruct v; cbn; split; intros H; try discriminate; eauto;
    destruct H as [?|[? ?]]; discriminate.
Qed.

Lemma boolean_accepts p v :
  Zod._parse Zod.boolean p v = [] <-> exists b, v = VBool b.
Proof.
  destruct v; cbn; split; intros H; try discriminate; eauto;
    destruct H as [? ?]; discriminate.
Qed.

Lemma optional_enum_accepts values p v :
  Zod._parse (Zod.optional (Zod.enum values)) p v = [] <->
  v = VUndefined \/ exists s, v = VStr s /\ s ∈ values.
Proof.
  destruct v as [| |b|n|s|k]; cbn;
    try (split; [discriminate | intros [?|(?&?&?)]; discriminate]).
  - split; auto.
  - case_bool_decide.
    + split; [|reflexivity]. intros _. right. eauto.
    + split; [discriminate|]. intros [?|(?&[= <-]&?)]; [discriminate|]. done.
Qed.

(** ** Issues, their paths and the error map built from them *)

Lemma string_check_path s p c i :
  In i (Zod.string_check s p c) -> Zod.path i = p.
Proof.
  destruct c as [value msg]. unfold Zod.string_check.
  destruct (String.length s <? value)%nat;
    [intros [<-|[]]; reflexivity | intros []].
Qed.

Lemma number_check_path n p c i :
  In i (Zod.number_check n p c) -> Zod.path i = p.
Proof.
  destruct c as [value msg|value msg]; unfold Zod.number_check.
  - destruct (num_lt n value); [intros [<-|[]]; reflexivity | intros []].
  - destruct (num_gt n value); [intros [<-|[]]; reflexivity | intros []].
Qed.

Lemma parse_path t p v i : i ∈ Zod._parse t p v -> Zod.path i = p.
Proof.
  revert v. induction t as [checks|checks| |values|inner IH]; intros v Hi.
  - destruct v; cbn [Zod._parse] in Hi;
      try (apply list_elem_of_singleton in Hi; by subst).
    apply list_elem_of_In, in_flat_map in Hi as (c & _ & Hc).
    by apply string_check_path in Hc.
  - destruct v as [| | |n| |]; cbn [Zod._parse] in Hi;
      try (apply list_elem_of_singleton in Hi; by subst).
    destruct n; try (apply list_elem_of_singleton in Hi; by subst);
      apply list_elem_of_In, in_flat_map in Hi as (c & _ & Hc);
      by apply number_check_path in Hc.
  - destruct v; cbn in Hi; try (apply list_elem_of_singleton in Hi; by subst).
    by apply elem_of_nil in Hi.
  - destruct v; cbn in Hi; try (apply list_elem_of_singleton in Hi; by subst).
    case_bool_decide; [by apply elem_of_nil in Hi|].
    apply list_elem_of_singleton in Hi; by subst.
  - destruct v; cbn in Hi; try (by apply IH in Hi).
    by apply elem_of_nil in Hi.
Qed.

Lemma parse_path0 t k v i : i ∈ Zod._parse t [k] v -> path0 i = k.
Proof. intros Hi. unfold path0. by rewrite (parse_path _ _ _ _ Hi). Qed.

(** The reducer keeps, for each key, the message of the last issue with
    that key. *)
Lemma reduce_errors_lookup issues f :
  reduce_errors issues !! f =
    Zod.message <$> last (filter (fun i => path0 i = f) issues).
Proof.
  unfold reduce_errors.
  induction issues as [|i issues IH] using rev_ind; [done|].
  rewrite foldl_app, filter_app. cbn [foldl].
  destruct (decide (path0 i = f)) as [Heq|Hne].
  - rewrite Heq, lookup_insert_eq.
    rewrite filter_cons_True by done. rewrite filter_nil.
    by rewrite last_snoc.
  - rewrite lookup_insert_ne by done.
    rewrite filter_cons_False by done. rewrite filter_nil, app_nil_r.
    apply IH.
Qed.

Lemma filter_none {A} (P : A -> Prop) `{!forall x, Decision (P x)} (l : list A) :
  (forall x, x ∈ l -> ~ P x) -> filter P l = [].
Proof.
  induction l as [|x l IH]; intros HP; [done|].
  rewrite filter_cons_False by (apply HP; left).
  apply IH. intros y Hy. apply HP. by right.
Qed.

Lemma filter_all {A} (P : A -> Prop) `{!forall x, Decision (P x)} (l : list A) :
  (forall x, x ∈ l -> P x) -> filter P l = l.
Proof.
  induction l as [|x l IH]; intros HP; [done|].
  rewrite filter_cons_True by (apply HP; left).
  f_equal. apply IH. intros y Hy. apply HP. by right.
Qed.

(** The issues of one key among those of the whole object. *)
Lemma filter_object_issues shape d k t :
  NoDup shape.*1 -> (k, t) ∈ shape ->
  filter (fun i => path0 i = k) (Zod.object_issues shape d)
  = Zod._parse t [k] (get d k).
Proof.
  unfold Zod.object_issues.
  induction shape as [|[k' t'] shape IH]; intros Hnd Hin.
  { by apply elem_of_nil in Hin. }
  cbn in Hnd. apply NoDup_cons in Hnd as [Hk' Hnd].
  cbn [flat_map fst snd]. rewrite filter_app.
  assert (forall k1 t1 k2, k1 <> k2 ->
            filter (fun i => path0 i = k2) (Zod._parse t1 [k1] (get d k1)) = [])
    as Hother.
  { intros k1 t1 k2 Hne. apply filter_none.
    intros i Hi. rewrite (parse_path0 _ _ _ _ Hi). done. }
  assert (forall k1 t1,
            filter (fun i => path0 i = k1) (Zod._parse t1 [k1] (get d k1))
            = Zod._parse t1 [k1] (get d k1)) as Hsame.
  { intros k1 t1. apply filter_all.
    intros i Hi. apply (parse_path0 _ _ _ _ Hi). }
  apply elem_of_cons in Hin as [[= -> ->]|Hin].
  - rewrite Hsame.
    assert (filter (fun i => path0 i = k')
              (flat_map (fun kt => Zod._parse kt.2 [kt.1] (get d kt.1)) shape)
            = []) as ->; [|by rewrite app_nil_r].
    clear IH Hnd. induction shape as [|[k2 t2] shape IH]; [done|].
    cbn [flat_map fst snd]. rewrite filter_app.
    rewrite Hother, IH; [done| |].
    + intros ?. apply Hk'. cbn. by right.
    + intros ->. apply Hk'. cbn. by left.
  - rewrite Hother, IH; [done|done|done|].
    intros ->. apply Hk'. apply list_elem_of_fmap. by exists (k, t).
Qed.

Lemma object_issues_nil shape d :
  Zod.object_issues shape d = [] <->
  forall k t, (k, t) ∈ shape -> Zod._parse t [k] (get d k) = [].
Proof.
  unfold Zod.object_issues. induction shape as [|[k' t'] shape IH].
  - split; [|done]. intros _ k t Hin. by apply elem_of_nil in Hin.
  - cbn [flat_map fst snd]. split.
    + intros H. apply app_eq_nil in H as [H1 H2].
      intros k t Hin. apply elem_of_cons in Hin as [[= -> ->]|Hin]; [done|].
      by apply IH.
    + intros H. rewrite (H k' t') by left.
      apply IH. intros k t Hin. apply H. by right.
Qed.

(** The parsed object has the input's value at every key of the shape
    and nothing else. *)
Lemma object_value_fold shape (d acc : gmap string JsVal) k :
  foldl (fun acc (kt : string * Zod.ZodType) =>
           match d !! kt.1 with
           | Some v => <[kt.1 := v]> acc
           | None => acc
           end) acc shape !! k
  = if decide (k ∈ shape.*1)
    then match d !! k with Some v => Some v | None => acc !! k end
    else acc !! k.
Proof.
  revert acc. induction shape as [|[k' t'] shape IH]; intros acc.
  { cbn. case_decide as H; [by apply elem_of_nil in H | done]. }
  cbn [foldl fst fmap list_fmap]. rewrite IH.
  destruct (decide (k = k')) as [->|Hne].
  - rewrite (decide_True (P := k' ∈ k' :: shape.*1)) by left.
    destruct (d !! k') eqn:Hd.
    + rewrite lookup_insert_eq. by case_decide.
    + by case_decide.
  - assert (match d !! k' with
            | Some v => <[k':=v]> acc
            | None => acc
            end !! k = acc !! k) as ->.
    { destruct (d !! k'); [by rewrite lookup_insert_ne|done]. }
    repeat case_decide; try done.
    + exfalso. apply H0. by right.
    + exfalso. apply elem_of_cons in H0 as [?|?]; done.
Qed.

Lemma object_value_lookup shape d k :
  Zod.object_value shape d !! k =
    if decide (k ∈ shape.*1) then d !! k else None.
Proof.
  unfold Zod.object_value. rewrite object_value_fold, lookup_empty.
  case_decide; [|done]. by destruct (d !! k).
Qed.

Lemma schema_keys_NoDup : NoDup schema.*1.
Proof. apply (bool_decide_unpack _). vm_compute. reflexivity. Qed.

Lemma get_insert_eq (d : gmap string JsVal) k v : get (<[k := v]> d) k = v.
Proof. unfold get. by rewrite lookup_insert_eq. Qed.

Lemma get_insert_ne (d : gmap string JsVal) k k' v :
  k <> k' -> get (<[k := v]> d) k' = get d k'.
Proof. intros. unfold get. by rewrite lookup_insert_ne. Qed.

(** ** What one call of [onSubmit] does *)

Section OnSubmit.

Variable rng : nat -> option (list Z).

Lemma onSubmit_generator_throws w :
  rng (uuid_calls w) = None ->
  onSubmit rng w =
    (Returns tt,
     mkWorld (state w) (errors w) (emitted w) (console w) (S (uuid_calls w))).
Proof.
  intros Hrng.
  unfold onSubmit, try_catch, mbind, Js_bind, bind, uuidv4.
  rewrite Hrng. reflexivity.
Qed.

Lemma onSubmit_valid w rnds :
  rng (uuid_calls w) = Some rnds ->
  accepts (with_id rnds (state w)) ->
  onSubmit rng w =
    (Returns tt,
     mkWorld (with_id rnds (state w)) (errors w)
       (emitted w ++
          [("formSubmitted", Zod.object_value schema (with_id rnds (state w)))])
       (console w) (S (uuid_calls w))).
Proof.
  intros Hrng Hok. unfold accepts, with_id in *.
  unfold onSubmit, try_catch, mbind, Js_bind, bind, uuidv4.
  rewrite Hrng. cbn -[schema]. unfold schema_parse. rewrite Hok.
  reflexivity.
Qed.

Lemma onSubmit_invalid w rnds :
  rng (uuid_calls w) = Some rnds ->
  fails_validation (with_id rnds (state w)) ->
  onSubmit rng w =
    (Returns tt,
     let e := reduce_errors (Zod.object_issues schema (with_id rnds (state w))) in
     mkWorld (with_id rnds (state w)) e (emitted w)
       (console w ++ [("Validation Errors:", e)]) (S (uuid_calls w))).
Proof.
  intros Hrng Hbad. unfold fails_validation, with_id in *.
  unfold onSubmit, try_catch, mbind, Js_bind, bind, uuidv4.
  rewrite Hrng. cbn -[schema]. unfold schema_parse.
  destruct (Zod.object_issues schema _) as [|i issues] eqn:Hiss; [done|].
  reflexivity.
Qed.

(** No exception ever leaves [onSubmit]. *)
Lemma onSubmit_returns w : (onSubmit rng w).1 = Returns tt.
Proof.
  destruct (rng (uuid_calls w)) as [rnds|] eqn:Hrng.
  - destruct (Zod.object_issues schema (with_id rnds (state w))) eqn:Hiss.
    + by rewrite (onSubmit_valid w rnds).
    + rewrite (onSubmit_invalid w rnds); [done|done|].
      unfold fails_validation. by rewrite Hiss.
  - by rewrite onSubmit_generator_throws.
Qed.

End OnSubmit.

(** ** The schema against the field rules *)

Lemma or_undefined (v : JsVal) (P : Prop) :
  (v = VUndefined \/ P) <-> (present v -> P).
Proof.
  unfold present. destruct v; split; intros H; try (intros ?; by destruct H);
    first [by left | right; by apply H].
Qed.

Lemma rating_rule p v : Zod._parse rating p v = [] <-> rule_ok optional_rating v.
Proof.
  rewrite rating_accepts. cbn [rule_ok]. rewrite <- or_undefined.
  unfold number_in_1_5. split; (intros [?|H]; [by left|right]).
  - destruct H as ([| | |q] & -> & Hr); try done. by exists q.
  - destruct H as (q & -> & Hr). by exists (Finite q).
Qed.

Lemma schema_follows_data_model :
  Forall2 (fun (kt : string * Zod.ZodType) (fr : string * FieldRule) =>
             kt.1 = fr.1 /\
             forall p v, Zod._parse kt.2 p v = [] <-> rule_ok fr.2 v)
    schema data_model.
Proof.
  unfold schema, data_model.
  repeat (apply Forall2_cons; split); try (by apply Forall2_nil);
    (split; [reflexivity|]); intros p v; cbn [fst snd rule_ok];
    first [ apply nonempty_string_accepts
          | apply boolean_accepts
          | apply rating_rule
          | rewrite <- or_undefined; apply optional_string_accepts
          | rewrite <- or_undefined; apply optional_enum_accepts ].
Qed.

Lemma schema_rule k t :
  (k, t) ∈ schema ->
  exists r, (k, r) ∈ data_model /\
            forall p v, Zod._parse t p v = [] <-> rule_ok r v.
Proof.
  intros Hin. apply list_elem_of_lookup in Hin as [i Hi].
  destruct (Forall2_lookup_l _ _ _ _ _ schema_follows_data_model Hi)
    as ([k' r] & Hr & Hk & Hiff).
  cbn in Hk, Hiff. subst k'. exists r. split; [|done].
  apply list_elem_of_lookup. by exists i.
Qed.

Lemma data_model_validator f r :
  (f, r) ∈ data_model ->
  exists t, (f, t) ∈ schema /\
            forall p v, Zod._parse t p v = [] <-> rule_ok r v.
Proof.
  intros Hin. apply list_elem_of_lookup in Hin as [i Hi].
  destruct (Forall2_lookup_r _ _ _ _ _ schema_follows_data_model Hi)
    as ([k' t] & Ht & Hk & Hiff).
  cbn in Hk, Hiff. subst k'. exists t. split; [|done].
  apply list_elem_of_lookup. by exists i.
Qed.

Lemma accepts_iff_draft_valid d : accepts d <-> draft_valid d.
Proof.
  unfold accepts, draft_valid. rewrite object_issues_nil. split.
  - intros H f r Hin. destruct (data_model_validator f r Hin) as (t & Ht & Hiff).
    apply Hiff with (p := [f]). by apply H.
  - intros H k t Hin. destruct (schema_rule k t Hin) as (r & Hr & Hiff).
    apply Hiff. by apply H.
Qed.

(** The message the rebuilt error map holds for a key of the schema. *)
Lemma error_entry d k t :
  (k, t) ∈ schema ->
  reduce_errors (Zod.object_issues schema d) !! k
  = Zod.message <$> last (Zod._parse t [k] (get d k)).
Proof.
  intros Hin. rewrite reduce_errors_lookup.
  by rewrite (filter_object_issues schema d k t schema_keys_NoDup Hin).
Qed.

(** ** The scenarios of the specification, run on the model *)

Example v4_format :
  Uuid.v4_of [1; 2; 3; 255; 256 + 171]%Z
  = "010203ff-ab00-4000-8000-000000000000".
Proof. vm_compute. reflexivity. Qed.

(** Scenario A: the submission succeeds and the record carries the
    identifier, the school and the nationality. *)
Example scenario_A :
  let r := onSubmit three_calls (mkWorld acme_draft ∅ [] [] 0) in
  r.1 = Returns tt /\ errors r.2 = ∅ /\
  exists record,
    emitted r.2 = [("formSubmitted", record)] /\
    record !! "uniqueId" = Some (VStr "00ff0000-0000-4000-8000-000000000000") /\
    record !! "schoolName" = Some (VStr "Acme University") /\
    record !! "nationality" = Some (VStr "Dutch").
Proof.
  cbv zeta.
  rewrite (onSubmit_valid three_calls _ [0%Z; 255%Z]);
    [|reflexivity|vm_compute; reflexivity].
  split; [reflexivity|]. split; [reflexivity|].
  eexists. split; [reflexivity|]. repeat split; vm_compute; reflexivity.
Qed.

(** Scenario B: both required strings are empty. *)
Example scenario_B :
  let r := onSubmit three_calls initial_world in
  r.1 = Returns tt /\ emitted r.2 = [] /\
  errors r.2 = {[ "schoolName" := "School name is required";
                  "nationality" := "Nationality is required" ]}.
Proof. vm_compute. repeat split; reflexivity. Qed.

(** Scenario C: a rating of 7. *)
Example scenario_C :
  let d := <["qualityOfTeaching" := VNum (of_Z 7)]> acme_draft in
  let r := onSubmit three_calls (mkWorld d ∅ [] [] 0) in
  emitted r.2 = [] /\
  errors r.2 = {[ "qualityOfTeaching" := "Number must be less than or equal to 5" ]}.
Proof. vm_compute. repeat split; reflexivity. Qed.

(** The reducer alone lets a later issue overwrite an earlier one with
    the same key; the schema of this form never produces such a list
    (see [schema_one_issue] below). *)
Example reducer_overwrites :
  reduce_errors [ Zod.mkIssue Zod.too_small ["a"] "first";
                  Zod.mkIssue Zod.too_big ["a"] "second" ] !! "a"
  = Some "second".
Proof. vm_compute. reflexivity. Qed.

(** ** C1: what full-schema validation accepts *)

(** C1, as stated, fails on the code.  A draft whose [qualityOfTeaching]
    is 2.5 is accepted, and the rebuilt error map would hold nothing for
    that field, although 2.5 is no integer; and a draft that meets all the
    listed conditions but has [sex = "other"] is rejected. *)
Lemma non_integer_rating_accepted :
  let d := <["qualityOfTeaching" := VNum (Finite (5 # 2))]> acme_draft in
  let d' := <["sex" := VStr "other"]> acme_draft in
  (accepts d /\ ~ valid_with_integer_ratings d /\
   reduce_errors (Zod.object_issues schema d) !! "qualityOfTeaching" = None)
  /\ (valid_with_integer_ratings d' /\ ~ accepts d').
Proof.
  cbv zeta. split; [split; [|split]|split].
  - vm_compute. reflexivity.
  - intros (_ & _ & _ & Hr).
    destruct (Hr "qualityOfTeaching") as (q & Hq & (z & Hz) & _).
    + by left.
    + vm_compute. discriminate.
    + vm_compute in Hq. injection Hq as <-.
      unfold Qeq in Hz. cbn in Hz. lia.
  - vm_compute. reflexivity.
  - split; [|split; [|split]].
    + exists "Acme University". split; [vm_compute; reflexivity | discriminate].
    + exists "Dutch". split; [vm_compute; reflexivity | discriminate].
    + exists false. vm_compute. reflexivity.
    + intros f Hf Hp. exfalso. apply Hp. unfold rating_fields in Hf.
      repeat (apply elem_of_cons in Hf as [->|Hf]; [vm_compute; reflexivity|]).
      by apply elem_of_nil in Hf.
  - vm_compute. discriminate.
Qed.

(** C1, amended: the schema accepts a draft exactly when [schoolName] and
    [nationality] are non-empty strings, [currentStudent] is a boolean,
    every rating that is present is a number (integer or not) between 1
    and 5, [sex], when present, is one of the four listed strings, and
    [uniqueId], [yearOfStudy], [nameOfStudy] and [additionalComments],
    when present, are strings; and a field that breaks its rule has an
    entry in the error map built from the issues. *)
Theorem schema_accepts_iff_valid :
  (forall d, accepts d <-> draft_valid d) /\
  (forall d f r,
     (f, r) ∈ data_model -> ~ rule_ok r (get d f) ->
     ~ accepts d /\
     is_Some (reduce_errors (Zod.object_issues schema d) !! f)).
Proof.
  split; [apply accepts_iff_draft_valid|].
  intros d f r Hin Hbad. split.
  - rewrite accepts_iff_draft_valid. intros H. apply Hbad. by apply H.
  - destruct (data_model_validator f r Hin) as (t & Ht & Hiff).
    rewrite (error_entry d f t Ht).
    destruct (Zod._parse t [f] (get d f)) as [|i l] eqn:Hp using rev_ind.
    + exfalso. apply Hbad. by apply (Hiff [f]).
    + rewrite last_snoc. by eexists.
Qed.

Lemma schema_accepts_iff_valid_witness :
  ~ accepts initial_state /\
  is_Some (reduce_errors (Zod.object_issues schema initial_state) !! "schoolName").
Proof.
  apply (proj2 schema_accepts_iff_valid initial_state "schoolName"
           required_nonempty_string).
  - right. left.
  - intros (s & Hs & Hne). vm_compute in Hs. injection Hs as <-. by apply Hne.
Defined.

(** ** C2: a failed submission emits nothing and loses nothing *)

(** C2: when the draft that [onSubmit] validates (the draft with the fresh
    identifier in place) fails validation, no event is emitted and every
    field other than [uniqueId] keeps the value it had when [onSubmit]
    was called. *)
Theorem failed_submit_keeps_draft rng w rnds :
  rng (uuid_calls w) = Some rnds ->
  fails_validation (with_id rnds (state w)) ->
  let w' := (onSubmit rng w).2 in
  emitted w' = emitted w /\
  forall f, f <> "uniqueId" -> state w' !! f = state w !! f.
Proof.
  intros Hrng Hbad. rewrite (onSubmit_invalid rng w rnds Hrng Hbad).
  cbn. split; [reflexivity|].
  intros f Hf. unfold with_id. by rewrite lookup_insert_ne.
Qed.

Lemma failed_submit_keeps_draft_witness :
  let w' := (onSubmit three_calls initial_world).2 in
  emitted w' = emitted initial_world /\
  forall f, f <> "uniqueId" -> state w' !! f = state initial_world !! f.
Proof.
  apply (failed_submit_keeps_draft three_calls initial_world [0%Z; 255%Z]).
  - reflexivity.
  - vm_compute. discriminate.
Defined.

(** ** C3: the error map after a successful submission *)

(** C3, as stated, fails on the code: the submission below succeeds (one
    event is emitted) and the error left by the earlier attempt is still
    in the map afterwards. *)
Lemma stale_error_survives_success :
  let w' := (onSubmit three_calls stale_world).2 in
  length (emitted w') = 1 /\
  errors w' !! "schoolName" = Some "School name is required" /\
  errors w' <> ∅.
Proof.
  cbv zeta.
  rewrite (onSubmit_valid three_calls stale_world [0%Z; 255%Z]);
    [|reflexivity|vm_compute; reflexivity].
  cbn [snd emitted errors stale_world]. split; [reflexivity|]. split.
  - apply lookup_singleton_eq.
  - intros H. apply (f_equal (fun m => m !! "schoolName")) in H.
    rewrite lookup_singleton_eq, lookup_empty in H. discriminate.
Qed.

(** C3, amended: a successful [onSubmit] emits the record and leaves the
    error map exactly as it was before the call (so it is empty afterwards
    only if it was empty before); a failing one replaces the map by the
    one built from the issues of this attempt alone, whatever the map
    held before. *)
Theorem error_map_after_submit rng w rnds :
  rng (uuid_calls w) = Some rnds ->
  let d := with_id rnds (state w) in
  let w' := (onSubmit rng w).2 in
  (accepts d ->
     errors w' = errors w /\
     emitted w' =
       (emitted w ++ [("formSubmitted", Zod.object_value schema d)])%list) /\
  (fails_validation d ->
     errors w' = reduce_errors (Zod.object_issues schema d)).
Proof.
  intros Hrng. cbv zeta. split.
  - intros Hok. by rewrite (onSubmit_valid rng w rnds Hrng Hok).
  - intros Hbad. by rewrite (onSubmit_invalid rng w rnds Hrng Hbad).
Qed.

Lemma error_map_after_submit_witness :
  let d := with_id [0%Z; 255%Z] (state stale_world) in
  let w' := (onSubmit three_calls stale_world).2 in
  (accepts d ->
     errors w' = errors stale_world /\
     emitted w' =
       (emitted stale_world
          ++ [("formSubmitted", Zod.object_value schema d)])%list) /\
  (fails_validation d ->
     errors w' = reduce_errors (Zod.object_issues schema d)).
Proof.
  apply (error_map_after_submit three_calls stale_world [0%Z; 255%Z]).
  reflexivity.
Defined.

(** ** C7: a fault of the identifier generator *)

(** C7, as stated, fails on the code: with a generator that throws,
    [onSubmit] returns normally; no exception reaches its caller. *)
Lemma generator_fault_swallowed :
  (onSubmit broken_rng initial_world).1 = Returns tt /\
  ~ exists e, (onSubmit broken_rng initial_world).1 = Throws e.
Proof.
  rewrite onSubmit_returns. split; [reflexivity|]. intros [e He]. discriminate.
Qed.

(** C7, amended: when the identifier generator throws, [onSubmit] catches
    the exception and returns normally; no event is emitted, and the draft
    and the error map are as they were. *)
Theorem generator_fault_caught rng w :
  rng (uuid_calls w) = None ->
  let r := onSubmit rng w in
  r.1 = Returns tt /\
  emitted r.2 = emitted w /\ state r.2 = state w /\ errors r.2 = errors w.
Proof.
  intros Hrng. by rewrite (onSubmit_generator_throws rng w Hrng).
Qed.

Lemma generator_fault_caught_witness :
  let r := onSubmit broken_rng initial_world in
  r.1 = Returns tt /\
  emitted r.2 = emitted initial_world /\ state r.2 = state initial_world /\
  errors r.2 = errors initial_world.
Proof.
  apply (generator_fault_caught broken_rng initial_world). reflexivity.
Defined.

(** ** C9: the list of school names *)

(** C9: [schoolNames] gives one name per record of the dataset, in the
    dataset's order: the result is as long as the dataset and its [i]-th
    element is the [INSTELLINGSNAAM] of the [i]-th record; nothing is
    filtered out or merged, and the result is a function of the dataset
    alone. *)
Theorem schoolNames_one_per_record (schools : list School) :
  length (schoolNames schools) = length schools /\
  (forall i, schoolNames schools !! i = INSTELLINGSNAAM <$> schools !! i) /\
  (forall more, schoolNames (schools ++ more)
                = (schoolNames schools ++ schoolNames more)%list).
Proof.
  unfold schoolNames. split; [apply length_map|]. split.
  - intros i. apply list_lookup_fmap.
  - intros more. apply map_app.
Qed.

(** ** C4 and C6: the error map of a failed submission *)

Ltac schema_cases H :=
  unfold schema in H;
  repeat (apply elem_of_cons in H as [H|H]; [simplify_eq|]);
  [..|by apply elem_of_nil in H].

Lemma issue_of_some_key shape d i :
  i ∈ Zod.object_issues shape d ->
  exists k t, (k, t) ∈ shape /\ i ∈ Zod._parse t [k] (get d k).
Proof.
  unfold Zod.object_issues. intros Hi.
  apply list_elem_of_In, in_flat_map in Hi as ([k t] & Hkt & Hi).
  exists k, t. split; by apply list_elem_of_In.
Qed.

(** With this schema a field never has two issues: a value of the wrong
    type is reported once and not checked further, the strings have a
    single check, and no number is both below 1 and above 5. *)
Lemma schema_one_issue k t v :
  (k, t) ∈ schema -> length (Zod._parse t [k] v) <= 1.
Proof.
  intros Hin. schema_cases Hin;
    try (destruct v as [| |b|n|[|c s]|r]; cbn; lia);
    try (destruct v as [| |b|n|s|r]; cbn; try lia; case_bool_decide; cbn; lia);
    (destruct v as [| |b|[| | |q]|s|r]; try (cbn; lia);
     change (Zod.optional (Zod.max 5 (Zod.min 1 Zod.number))) with rating;
     rewrite rating_finite; repeat case_match; cbn; lia).
Qed.

Lemma issues_per_field d f :
  length (filter (fun i => path0 i = f) (Zod.object_issues schema d)) <= 1.
Proof.
  destruct (decide (f ∈ schema.*1)) as [Hin|Hout].
  - apply list_elem_of_fmap in Hin as ([k t] & -> & Hin). cbn [fst].
    rewrite (filter_object_issues schema d k t schema_keys_NoDup Hin).
    by apply schema_one_issue.
  - rewrite filter_none; [cbn; lia|].
    intros i Hi Hf. apply Hout.
    apply issue_of_some_key in Hi as (k & t & Hkt & Hi).
    rewrite (parse_path0 _ _ _ _ Hi) in Hf. subst f.
    apply list_elem_of_fmap. by exists (k, t).
Qed.

Lemma head_last_short {A} (l : list A) : length l <= 1 -> head l = last l.
Proof. destruct l as [|a [|b l]]; cbn; intros; try done. lia. Qed.

(** C4: when a failing submission rebuilds the error map, a field has an
    entry exactly when some issue of the thrown error is about it, the
    entry is a single message, and that message is the one of the first
    issue about the field. *)
Theorem first_failure_per_field rng w rnds :
  rng (uuid_calls w) = Some rnds ->
  fails_validation (with_id rnds (state w)) ->
  let issues := Zod.object_issues schema (with_id rnds (state w)) in
  let w' := (onSubmit rng w).2 in
  forall f,
    errors w' !! f
      = Zod.message <$> head (filter (fun i => path0 i = f) issues) /\
    (is_Some (errors w' !! f) <-> exists i, i ∈ issues /\ path0 i = f).
Proof.
  intros Hrng Hbad issues w' f. subst w'.
  rewrite (onSubmit_invalid rng w rnds Hrng Hbad). cbn [snd errors].
  rewrite reduce_errors_lookup.
  pose proof (head_last_short _ (issues_per_field (with_id rnds (state w)) f))
    as Hhl.
  fold issues in Hhl |- *. rewrite <- Hhl.
  split; [reflexivity|].
  destruct (filter (fun i => path0 i = f) issues) as [|i l] eqn:Hf; cbn.
  - split; [intros [? ?]; discriminate|].
    intros (i & Hi & Hp). exfalso.
    assert (i ∈ filter (fun i => path0 i = f) issues) as Hin
      by (by apply list_elem_of_filter).
    rewrite Hf in Hin. by apply elem_of_nil in Hin.
  - split; [|by eexists]. intros _. exists i.
    assert (i ∈ filter (fun i => path0 i = f) issues) as Hin
      by (rewrite Hf; left).
    apply list_elem_of_filter in Hin as [? ?]. done.
Qed.

Lemma first_failure_per_field_witness :
  let issues :=
    Zod.object_issues schema (with_id [0%Z; 255%Z] (state initial_world)) in
  let w' := (onSubmit three_calls initial_world).2 in
  let f := "nationality" in
  errors w' !! f
    = Zod.message <$> head (filter (fun i => path0 i = f) issues) /\
  (is_Some (errors w' !! f) <-> exists i, i ∈ issues /\ path0 i = f).
Proof.
  apply (first_failure_per_field three_calls initial_world [0%Z; 255%Z]).
  - reflexivity.
  - vm_compute. discriminate.
Defined.

(** C6: validation does not stop at the first failure.  Every field whose
    validator rejects its value has an entry in the error map of the
    failed submission, however many such fields there are; when
    [schoolName] and [nationality] are both empty, both have their
    entry. *)
Theorem all_failing_fields_reported rng w rnds :
  rng (uuid_calls w) = Some rnds ->
  let w' := (onSubmit rng w).2 in
  (forall k t,
     (k, t) ∈ schema -> k <> "uniqueId" ->
     Zod._parse t [k] (get (state w) k) <> [] ->
     is_Some (errors w' !! k) /\ emitted w' = emitted w) /\
  (get (state w) "schoolName" = VStr "" ->
   get (state w) "nationality" = VStr "" ->
   errors w' !! "schoolName" = Some "School name is required" /\
   errors w' !! "nationality" = Some "Nationality is required").
Proof.
  intros Hrng w'.
  assert (forall k t, (k, t) ∈ schema -> k <> "uniqueId" ->
            Zod._parse t [k] (get (state w) k) <> [] ->
            fails_validation (with_id rnds (state w)) /\
            errors w' !! k
            = Zod.message <$> last (Zod._parse t [k] (get (state w) k)))
    as Hentry.
  { intros k t Hin Hk Hrej.
    assert (get (with_id rnds (state w)) k = get (state w) k) as Hget
      by (unfold with_id; by rewrite get_insert_ne).
    assert (fails_validation (with_id rnds (state w))) as Hbad.
    { intros Hok. apply Hrej. rewrite <- Hget.
      by apply (proj1 (object_issues_nil schema _) Hok). }
    split; [done|]. subst w'.
    rewrite (onSubmit_invalid rng w rnds Hrng Hbad). cbn [snd errors].
    by rewrite (error_entry _ k t Hin), Hget. }
  split.
  - intros k t Hin Hk Hrej. destruct (Hentry k t Hin Hk Hrej) as [Hbad ->].
    split.
    + destruct (Zod._parse t [k] (get (state w) k)) as [|i l] using rev_ind;
        [done|]. rewrite last_snoc. by eexists.
    + subst w'. by rewrite (onSubmit_invalid rng w rnds Hrng Hbad).
  - intros Hs Hn. split.
    + destruct (Hentry "schoolName"
                  (Zod.nonempty "School name is required" Zod.string))
        as [_ ->]; [right; left|discriminate|rewrite Hs; discriminate|].
      by rewrite Hs.
    + destruct (Hentry "nationality"
                  (Zod.nonempty "Nationality is required" Zod.string))
        as [_ ->]; [do 3 right; left|discriminate|rewrite Hn; discriminate|].
      by rewrite Hn.
Qed.

Lemma all_failing_fields_reported_witness :
  let w' := (onSubmit three_calls initial_world).2 in
  errors w' !! "schoolName" = Some "School name is required" /\
  errors w' !! "nationality" = Some "Nationality is required".
Proof.
  apply (all_failing_fields_reported three_calls initial_world [0%Z; 255%Z]);
    reflexivity.
Defined.

(** ** C8 and C10: what the schema does not ask for *)

Ltac not_skipped :=
  let H := fresh in
  intros H; repeat (apply elem_of_cons in H as [H|H]; [discriminate H|]);
  by apply elem_of_nil in H.

Lemma accepted_is_emitted rng w rnds :
  rng (uuid_calls w) = Some rnds ->
  accepts (with_id rnds (state w)) -> emits_record rng w rnds.
Proof.
  intros Hrng Hok. split; [done|]. split.
  - by rewrite (onSubmit_valid rng w rnds Hrng Hok).
  - intros k. apply object_value_lookup.
Qed.

(** A field of the schema other than the identifier reads the same in
    the parsed record as in the draft. *)
Lemma record_field rnds d k :
  k ∈ schema.*1 -> k <> "uniqueId" ->
  get (Zod.object_value schema (with_id rnds d)) k = get d k.
Proof.
  intros Hk Hne. unfold get. rewrite object_value_lookup.
  rewrite decide_True by done. unfold with_id. by rewrite lookup_insert_ne.
Qed.

(** C8: a draft with [currentStudent = true] (or [false]) whose
    [yearOfStudy] and [nameOfStudy] are empty or not set, and whose other
    fields pass their validators passes validation and is emitted: the
    one event added is [formSubmitted], its record holds the draft's
    value at every field of the schema (with the fresh identifier) and no
    other key, so [currentStudent] and the two empty study fields reach the
    parent as they are in the draft.  The schema never requires the two
    study fields, whatever [currentStudent] is. *)
Theorem study_fields_never_required rng w rnds b :
  rng (uuid_calls w) = Some rnds ->
  get (state w) "currentStudent" = VBool b ->
  (get (state w) "yearOfStudy" = VStr "" \/
   get (state w) "yearOfStudy" = VUndefined) ->
  (get (state w) "nameOfStudy" = VStr "" \/
   get (state w) "nameOfStudy" = VUndefined) ->
  others_valid ["uniqueId"; "currentStudent"; "yearOfStudy"; "nameOfStudy"]
    (state w) ->
  let record := Zod.object_value schema (with_id rnds (state w)) in
  emits_record rng w rnds /\
  emitted (onSubmit rng w).2 = (emitted w ++ [("formSubmitted", record)])%list /\
  (forall k,
     record !! k =
       if decide (k ∈ schema.*1) then with_id rnds (state w) !! k else None) /\
  get record "uniqueId" = VStr (Uuid.v4_of rnds) /\
  get record "currentStudent" = VBool b /\
  get record "yearOfStudy" = get (state w) "yearOfStudy" /\
  get record "nameOfStudy" = get (state w) "nameOfStudy".
Proof.
  intros Hrng Hcs Hy Hn Hrest record.
  assert (emits_record rng w rnds) as Hemit; [|
    split; [exact Hemit|]; split; [exact (proj1 (proj2 Hemit))|];
    split; [exact (proj2 (proj2 Hemit))|]; subst record; split;
      [unfold get; rewrite object_value_lookup;
       rewrite decide_True
         by (apply (bool_decide_unpack _); vm_compute; reflexivity);
       unfold with_id; by rewrite lookup_insert_eq|];
    rewrite !record_field
      by first [discriminate
               |apply (bool_decide_unpack _); vm_compute; reflexivity];
    by rewrite Hcs].
  apply accepted_is_emitted; [done|].
  apply object_issues_nil. intros k t Hin.
  destruct (decide (k = "uniqueId")) as [->|Hk].
  { unfold with_id. rewrite get_insert_eq.
    schema_cases Hin; reflexivity. }
  unfold with_id. rewrite get_insert_ne by done.
  pose proof (Hrest k t Hin) as Hr.
  schema_cases Hin; try (apply Hr; not_skipped).
  - by rewrite Hcs.
  - by destruct Hy as [-> | ->].
  - by destruct Hn as [-> | ->].
Qed.

Lemma study_fields_never_required_witness :
  let w := mkWorld current_student_draft ∅ [] [] 0 in
  let record := Zod.object_value schema (with_id [0%Z; 255%Z] (state w)) in
  emits_record three_calls w [0%Z; 255%Z] /\
  emitted (onSubmit three_calls w).2
    = (emitted w ++ [("formSubmitted", record)])%list /\
  (forall k,
     record !! k =
       if decide (k ∈ schema.*1)
       then with_id [0%Z; 255%Z] (state w) !! k else None) /\
  get record "uniqueId" = VStr (Uuid.v4_of [0%Z; 255%Z]) /\
  get record "currentStudent" = VBool true /\
  get record "yearOfStudy" = get (state w) "yearOfStudy" /\
  get record "nameOfStudy" = get (state w) "nameOfStudy".
Proof.
  apply (study_fields_never_required three_calls
           (mkWorld current_student_draft ∅ [] [] 0) [0%Z; 255%Z] true).
  - reflexivity.
  - reflexivity.
  - left. reflexivity.
  - left. reflexivity.
  - intros k t Hin Hk. schema_cases Hin; vm_compute; reflexivity.
Defined.

(** C10: the required strings are only asked to be longer than zero.  A
    draft whose [schoolName] and [nationality] are made of whitespace
    alone (at least one character each) and whose other fields pass their
    validators passes validation and is emitted as it is. *)
Theorem whitespace_names_accepted rng w rnds s1 s2 :
  rng (uuid_calls w) = Some rnds ->
  get (state w) "schoolName" = VStr s1 ->
  get (state w) "nationality" = VStr s2 ->
  whitespace_only s1 -> whitespace_only s2 ->
  others_valid ["uniqueId"; "schoolName"; "nationality"] (state w) ->
  emits_record rng w rnds /\
  get (Zod.object_value schema (with_id rnds (state w))) "schoolName" = VStr s1 /\
  get (Zod.object_value schema (with_id rnds (state w))) "nationality" = VStr s2 /\
  (forall msg p s,
     Zod._parse (Zod.nonempty msg Zod.string) p (VStr s) = [] <->
     0 < String.length s).
Proof.
  intros Hrng Hs Hn [Hs1 _] [Hs2 _] Hrest. split; [|split; [|split]].
  - apply accepted_is_emitted; [done|].
    apply object_issues_nil. intros k t Hin.
    destruct (decide (k = "uniqueId")) as [->|Hk].
    { unfold with_id. rewrite get_insert_eq.
      schema_cases Hin; reflexivity. }
    unfold with_id. rewrite get_insert_ne by done.
    pose proof (Hrest k t Hin) as Hr.
    schema_cases Hin; try (apply Hr; not_skipped).
    + rewrite Hs. apply nonempty_string_accepts. by exists s1.
    + rewrite Hn. apply nonempty_string_accepts. by exists s2.
  - unfold get in *. rewrite object_value_lookup.
    rewrite decide_True by (apply (bool_decide_unpack _); vm_compute; reflexivity).
    unfold with_id. by rewrite lookup_insert_ne.
  - unfold get in *. rewrite object_value_lookup.
    rewrite decide_True by (apply (bool_decide_unpack _); vm_compute; reflexivity).
    unfold with_id. by rewrite lookup_insert_ne.
  - intros msg p s. destruct s as [|c s]; cbn; split; intros H;
      first [discriminate | lia | reflexivity].
Qed.

Lemma whitespace_names_accepted_witness :
  let w := mkWorld blank_names_draft ∅ [] [] 0 in
  emits_record three_calls w [0%Z; 255%Z] /\
  get (Zod.object_value schema (with_id [0%Z; 255%Z] (state w))) "schoolName"
    = VStr " " /\
  get (Zod.object_value schema (with_id [0%Z; 255%Z] (state w))) "nationality"
    = VStr (String "009" " ") /\
  (forall msg p s,
     Zod._parse (Zod.nonempty msg Zod.string) p (VStr s) = [] <->
     0 < String.length s).
Proof.
  apply (whitespace_names_accepted three_calls
           (mkWorld blank_names_draft ∅ [] [] 0) [0%Z; 255%Z]
           " " (String "009" " ")).
  - reflexivity.
  - reflexivity.
  - reflexivity.
  - split; [discriminate|]. repeat constructor.
  - split; [discriminate|]. repeat constructor.
  - intros k t Hin Hk. schema_cases Hin; vm_compute; reflexivity.
Defined.

(** ** C5: the identifier of each submission *)

(** A [v4] identifier is 36 characters long, whatever the random bytes. *)
Lemma v4_length src : String.length (Uuid.v4_of src) = 36.
Proof. reflexivity. Qed.

Lemma v4_nonempty src : Uuid.v4_of src <> "".
Proof.
  intros H. apply (f_equal String.length) in H.
  rewrite v4_length in H. discriminate.
Qed.

Lemma VStr_inj s1 s2 : VStr s1 = VStr s2 -> s1 = s2.
Proof. intros H. by injection H. Qed.

Section Session.

Variable rng : nat -> option (list Z).

Lemma emitted_id_of_valid rnds d :
  get (Zod.object_value schema (with_id rnds d)) "uniqueId"
  = VStr (Uuid.v4_of rnds).
Proof.
  unfold get. rewrite object_value_lookup.
  rewrite decide_True by (apply (bool_decide_unpack _); vm_compute; reflexivity).
  unfold with_id. by rewrite lookup_insert_eq.
Qed.

Lemma onSubmit_issued w ks :
  issued_by rng w ks -> exists ks', issued_by rng (onSubmit rng w).2 ks'.
Proof.
  intros (Hnd & Hlt & Hids).
  destruct (rng (uuid_calls w)) as [rnds|] eqn:Hrng.
  - destruct (Zod.object_issues schema (with_id rnds (state w))) eqn:Hiss.
    + exists (ks ++ [uuid_calls w])%list.
      rewrite (onSubmit_valid rng w rnds Hrng Hiss).
      unfold issued_by, emitted_ids. cbn [snd emitted uuid_calls].
      split; [|split].
      * apply NoDup_app. split; [done|]. split; [|apply NoDup_singleton].
        intros k Hk Hk'. apply list_elem_of_singleton in Hk'. subst k.
        rewrite Forall_forall in Hlt. specialize (Hlt _ Hk). lia.
      * apply Forall_app. split; [|by repeat constructor].
        eapply Forall_impl; [exact Hlt|]. cbn. intros; lia.
      * rewrite map_app. apply Forall2_app; [exact Hids|].
        repeat constructor. exists rnds. split; [done|].
        cbn [map snd]. apply emitted_id_of_valid.
    + exists ks. rewrite (onSubmit_invalid rng w rnds Hrng);
        [|unfold fails_validation; by rewrite Hiss].
      unfold issued_by, emitted_ids. cbn [snd emitted uuid_calls].
      split; [done|]. split; [|exact Hids].
      eapply Forall_impl; [exact Hlt|]. cbn. intros; lia.
  - exists ks. rewrite (onSubmit_generator_throws rng w Hrng).
    unfold issued_by, emitted_ids. cbn [snd emitted uuid_calls].
    split; [done|]. split; [|exact Hids].
    eapply Forall_impl; [exact Hlt|]. cbn. intros; lia.
Qed.

Lemma session_issued acts w ks :
  issued_by rng w ks -> exists ks', issued_by rng (session rng acts w) ks'.
Proof.
  revert w ks. induction acts as [|a acts IH]; intros w ks Hw.
  { by exists ks. }
  cbn [session]. destruct a as [field value|field value|].
  - apply (IH _ ks). exact Hw.
  - apply (IH _ ks). exact Hw.
  - destruct (onSubmit_issued w ks Hw) as [ks' Hks']. by apply (IH _ ks').
Qed.

Lemma issued_ids_distinct ids ks :
  never_repeats rng -> NoDup ks -> Forall2 (token_of rng) ids ks -> NoDup ids.
Proof.
  intros Hfresh Hnd Hids. induction Hids as [|id k ids ks Hid Hids IH].
  { apply NoDup_nil_2. }
  apply NoDup_cons in Hnd as [Hk Hnd]. apply NoDup_cons. split; [|by apply IH].
  intros Hin. apply list_elem_of_lookup in Hin as [n Hn].
  destruct (Forall2_lookup_l _ _ _ _ _ Hids Hn) as (k' & Hk' & Hid').
  destruct Hid as (r & Hr & ->). destruct Hid' as (r' & Hr' & Heq).
  apply VStr_inj in Heq.
  apply (Hfresh k k' r r'); [|done|done|done].
  intros ->. apply Hk. apply list_elem_of_lookup. by exists n.
Qed.

Lemma issued_ids_nonempty ids ks :
  Forall2 (token_of rng) ids ks ->
  Forall (fun id => exists s, id = VStr s /\ s <> "") ids.
Proof.
  intros Hids. induction Hids as [|id k ids ks (r & _ & ->) _ IH];
    constructor; [|done].
  eexists. split; [reflexivity|]. apply v4_nonempty.
Qed.

End Session.

(** C5: every call of [onSubmit] in which the generator returns a token
    first writes that token into the draft's [uniqueId], whether
    validation then succeeds or fails, and a record that is emitted
    carries it; so when the generator never returns the same token twice,
    the records emitted in a session all have non-empty, pairwise
    distinct [uniqueId] values. *)
Theorem fresh_identifier_each_submit rng :
  never_repeats rng ->
  (forall w rnds,
     rng (uuid_calls w) = Some rnds ->
     let w' := (onSubmit rng w).2 in
     state w' !! "uniqueId" = Some (VStr (Uuid.v4_of rnds)) /\
     (accepts (with_id rnds (state w)) ->
      exists r, emitted w' = (emitted w ++ [("formSubmitted", r)])%list /\
                r !! "uniqueId" = Some (VStr (Uuid.v4_of rnds)))) /\
  (forall acts w,
     emitted w = [] ->
     let ids := emitted_ids (session rng acts w) in
     NoDup ids /\ Forall (fun id => exists s, id = VStr s /\ s <> "") ids).
Proof.
  intros Hfresh. split.
  - intros w rnds Hrng w'. subst w'. split.
    + destruct (Zod.object_issues schema (with_id rnds (state w))) eqn:Hiss.
      * rewrite (onSubmit_valid rng w rnds Hrng Hiss). apply lookup_insert_eq.
      * rewrite (onSubmit_invalid rng w rnds Hrng);
          [|unfold fails_validation; by rewrite Hiss].
        apply lookup_insert_eq.
    + intros Hok. rewrite (onSubmit_valid rng w rnds Hrng Hok).
      eexists. split; [reflexivity|].
      rewrite object_value_lookup.
      rewrite decide_True by (apply (bool_decide_unpack _); vm_compute; reflexivity).
      apply lookup_insert_eq.
  - intros acts w Hnone ids.
    destruct (session_issued rng acts w []) as (ks & Hnd & _ & Hids).
    { unfold issued_by, emitted_ids. rewrite Hnone.
      repeat split; constructor. }
    split.
    + by apply (issued_ids_distinct rng ids ks).
    + by apply (issued_ids_nonempty rng ids ks).
Qed.

Lemma fresh_identifier_each_submit_witness :
  let ids := emitted_ids (session three_calls two_submissions initial_world) in
  length ids = 2 /\
  NoDup ids /\ Forall (fun id => exists s, id = VStr s /\ s <> "") ids.
Proof.
  split; [vm_compute; reflexivity|].
  apply (fun H => proj2 (fresh_identifier_each_submit three_calls H)
                    two_submissions initial_world).
  - intros i j ri rj Hij Hi Hj. unfold three_calls in Hi, Hj.
    destruct i as [|[|[|i]]], j as [|[|[|j]]]; try done;
      cbn in Hi, Hj; simplify_eq; vm_compute; discriminate.
  - reflexivity.
Defined.


(** * Further properties *)

(** ** The normalised school records *)

(** [filteredData] gives one record per school of the dataset, in the
    dataset's order, and each record holds the nine fields of its school
    under their new names. *)
Theorem filteredData_one_per_record (schools : list School) :
  length (filteredData schools) = length schools /\
  forall i s,
    schools !! i = Some s ->
    exists r,
      filteredData schools !! i = Some r /\
      schoolname r = INSTELLINGSNAAM s /\ schooltype r = SOORT_HO s /\
      province r = PROVINCIE s /\ streetName r = STRAATNAAM s /\
      houseNumber r = HUISNUMMER_TOEVOEGING s /\ postalCode r = POSTCODE s /\
      city r = PLAATSNAAM s /\ website r = INTERNETADRES s /\
      uniqueId r = BEVOEGD_GEZAG_NUMMER s.
Proof.
  unfold filteredData. split; [apply length_map|].
  intros i s Hs. eexists. split.
  - change (map ?f ?l) with (f <$> l). rewrite list_lookup_fmap, Hs. reflexivity.
  - cbn. repeat split.
Qed.

Lemma filteredData_one_per_record_witness :
  let s := mkSchool (VStr "Acme University") (VStr "wo") (VStr "Utrecht")
             (VStr "Main Street") (VNum (of_Z 1)) (VStr "1234 AB")
             (VStr "Utrecht") (VStr "acme.example") (VNum (of_Z 7)) in
  exists r,
    filteredData [s; s] !! 1 = Some r /\
    schoolname r = INSTELLINGSNAAM s /\ schooltype r = SOORT_HO s /\
    province r = PROVINCIE s /\ streetName r = STRAATNAAM s /\
    houseNumber r = HUISNUMMER_TOEVOEGING s /\ postalCode r = POSTCODE s /\
    city r = PLAATSNAAM s /\ website r = INTERNETADRES s /\
    uniqueId r = BEVOEGD_GEZAG_NUMMER s.
Proof.
  cbv zeta.
  apply (proj2 (filteredData_one_per_record _) 1). reflexivity.
Defined.

(** The names listed by [schoolNames] are the [schoolname] fields of the
    records of [filteredData], position by position: the two views of
    the dataset never disagree. *)
Theorem schoolNames_of_filteredData (schools : list School) :
  map schoolname (filteredData schools) = schoolNames schools.
Proof.
  unfold filteredData, schoolNames. rewrite map_map. reflexivity.
Qed.

(** ** What validation depends on *)

Lemma object_issues_ext shape d1 d2 :
  (forall k t, (k, t) ∈ shape ->
               Zod._parse t [k] (get d1 k) = Zod._parse t [k] (get d2 k)) ->
  Zod.object_issues shape d1 = Zod.object_issues shape d2.
Proof.
  unfold Zod.object_issues. induction shape as [|[k t] shape IH]; intros H.
  { reflexivity. }
  cbn [flat_map fst snd]. rewrite (H k t) by left. f_equal.
  apply IH. intros k' t' Hin. apply H. by right.
Qed.

Lemma uniqueId_validator t : ("uniqueId", t) ∈ schema -> t = Zod.optional Zod.string.
Proof. intros Hin. schema_cases Hin. reflexivity. Qed.

(** The issues do not depend on which string the identifier is. *)
Lemma issues_any_identifier s1 s2 d :
  Zod.object_issues schema (<["uniqueId" := VStr s1]> d)
  = Zod.object_issues schema (<["uniqueId" := VStr s2]> d).
Proof.
  apply object_issues_ext. intros k t Hin.
  destruct (decide (k = "uniqueId")) as [->|Hne].
  - rewrite (uniqueId_validator t Hin), !get_insert_eq. reflexivity.
  - by rewrite !get_insert_ne.
Qed.

Lemma entry_iff_rejected d f :
  is_Some (reduce_errors (Zod.object_issues schema d) !! f) <->
  exists t, (f, t) ∈ schema /\ Zod._parse t [f] (get d f) <> [].
Proof.
  split.
  - rewrite reduce_errors_lookup. intros [m Hm].
    destruct (last (filter (fun i => path0 i = f) (Zod.object_issues schema d)))
      as [i|] eqn:Hlast; [|discriminate].
    apply last_Some_elem_of, list_elem_of_filter in Hlast as [Hp Hi].
    apply issue_of_some_key in Hi as (k & t & Hkt & Hi).
    rewrite (parse_path0 _ _ _ _ Hi) in Hp. subst k.
    exists t. split; [done|]. intros Hnil. rewrite Hnil in Hi.
    by apply elem_of_nil in Hi.
  - intros (t & Hin & Hrej). rewrite (error_entry d f t Hin).
    destruct (Zod._parse t [f] (get d f)) as [|i l] using rev_ind; [done|].
    rewrite last_snoc. by eexists.
Qed.

(** Whatever the draft's [uniqueId] holds when [onSubmit] is called, a
    string or not, the call ends the same way: the value is overwritten
    before validation and plays no part in it. *)
Theorem prior_identifier_irrelevant rng w v rnds :
  rng (uuid_calls w) = Some rnds ->
  onSubmit rng
    (mkWorld (<["uniqueId" := v]> (state w)) (errors w) (emitted w) (console w)
       (uuid_calls w))
  = onSubmit rng w.
Proof.
  intros Hrng.
  set (w0 := mkWorld (<["uniqueId" := v]> (state w)) (errors w) (emitted w)
               (console w) (uuid_calls w)).
  assert (with_id rnds (state w0) = with_id rnds (state w)) as Hid.
  { unfold with_id, w0. cbn [state]. apply insert_insert_eq. }
  destruct (Zod.object_issues schema (with_id rnds (state w))) eqn:Hiss.
  - rewrite (onSubmit_valid rng w rnds Hrng Hiss).
    rewrite (onSubmit_valid rng w0 rnds Hrng); [|unfold accepts; by rewrite Hid].
    by rewrite Hid.
  - assert (fails_validation (with_id rnds (state w))) as Hbad
      by (unfold fails_validation; by rewrite Hiss).
    rewrite (onSubmit_invalid rng w rnds Hrng Hbad).
    rewrite (onSubmit_invalid rng w0 rnds Hrng); [|by rewrite Hid].
    by rewrite Hid.
Qed.

Lemma prior_identifier_irrelevant_witness :
  onSubmit three_calls
    (mkWorld (<["uniqueId" := VNum (of_Z 3)]> (state initial_world))
       (errors initial_world) (emitted initial_world) (console initial_world)
       (uuid_calls initial_world))
  = onSubmit three_calls initial_world.
Proof.
  apply (prior_identifier_irrelevant three_calls initial_world (VNum (of_Z 3))
           [0%Z; 255%Z]).
  reflexivity.
Defined.

(** Submitting twice in a row without touching the draft: a draft that
    failed fails again with the same error map and still nothing emitted;
    a draft that passed passes again, so two records are emitted that
    differ in nothing but their [uniqueId]. *)
Theorem resubmit_unchanged rng w r1 r2 :
  rng (uuid_calls w) = Some r1 ->
  rng (S (uuid_calls w)) = Some r2 ->
  let w1 := (onSubmit rng w).2 in
  let w2 := (onSubmit rng w1).2 in
  (fails_validation (with_id r1 (state w)) ->
     errors w2 = errors w1 /\ emitted w2 = emitted w) /\
  (accepts (with_id r1 (state w)) ->
     exists rec1 rec2,
       emitted w2 =
         (emitted w ++ [("formSubmitted", rec1); ("formSubmitted", rec2)])%list /\
       forall k, k <> "uniqueId" -> rec1 !! k = rec2 !! k).
Proof.
  intros H1 H2 w1 w2.
  assert (forall d, with_id r2 (with_id r1 d) = with_id r2 d) as Hover
    by (intros d; unfold with_id; apply insert_insert_eq).
  assert (Zod.object_issues schema (with_id r2 (state w))
          = Zod.object_issues schema (with_id r1 (state w))) as Hsame
    by apply issues_any_identifier.
  split.
  - intros Hbad. subst w2 w1.
    rewrite (onSubmit_invalid rng w r1 H1 Hbad). cbn [snd].
    rewrite (onSubmit_invalid rng _ r2); cbn [state uuid_calls]; rewrite ?Hover.
    + cbn [snd errors emitted]. by rewrite Hsame.
    + exact H2.
    + unfold fails_validation. by rewrite Hsame.
  - intros Hok. subst w2 w1.
    rewrite (onSubmit_valid rng w r1 H1 Hok). cbn [snd].
    rewrite (onSubmit_valid rng _ r2); cbn [state uuid_calls]; rewrite ?Hover.
    + cbn [snd emitted]. do 2 eexists. split.
      * rewrite <- app_assoc. reflexivity.
      * intros k Hk. rewrite !object_value_lookup. case_decide; [|done].
        unfold with_id. by rewrite !lookup_insert_ne.
    + exact H2.
    + unfold accepts. by rewrite Hsame.
Qed.

Lemma resubmit_unchanged_witness :
  let w1 := (onSubmit three_calls initial_world).2 in
  let w2 := (onSubmit three_calls w1).2 in
  (fails_validation (with_id [0%Z; 255%Z] (state initial_world)) ->
     errors w2 = errors w1 /\ emitted w2 = emitted initial_world) /\
  (accepts (with_id [0%Z; 255%Z] (state initial_world)) ->
     exists rec1 rec2,
       emitted w2 =
         (emitted initial_world
            ++ [("formSubmitted", rec1); ("formSubmitted", rec2)])%list /\
       forall k, k <> "uniqueId" -> rec1 !! k = rec2 !! k).
Proof.
  apply (resubmit_unchanged three_calls initial_world [0%Z; 255%Z] [1%Z; 255%Z]);
    reflexivity.
Defined.

(** ** What a submission hands over and what it reports *)

(** The record handed to the parent is a copy of the draft as it was
    validated: every field of the schema has the draft's value (the study
    fields too, whatever [currentStudent] is), and a key that is not in
    the schema is never passed on.  When the draft has no such key, the
    record is the draft. *)
Theorem emitted_record_is_draft rng w rnds :
  rng (uuid_calls w) = Some rnds ->
  accepts (with_id rnds (state w)) ->
  exists record,
    emitted (onSubmit rng w).2 = (emitted w ++ [("formSubmitted", record)])%list /\
    (forall k,
       record !! k =
         if decide (k ∈ schema.*1) then with_id rnds (state w) !! k else None) /\
    ((forall k, is_Some (state w !! k) -> k ∈ schema.*1) ->
     record = with_id rnds (state w)).
Proof.
  intros Hrng Hok. rewrite (onSubmit_valid rng w rnds Hrng Hok). cbn [snd emitted].
  eexists. split; [reflexivity|]. split.
  - intros k. apply object_value_lookup.
  - intros Hdom. apply map_eq. intros k. rewrite object_value_lookup.
    case_decide as Hk; [done|].
    destruct (with_id rnds (state w) !! k) as [v|] eqn:Hv; [|done].
    exfalso. apply Hk. unfold with_id in Hv.
    destruct (decide (k = "uniqueId")) as [->|Hne].
    + apply (bool_decide_unpack _). vm_compute. reflexivity.
    + rewrite lookup_insert_ne in Hv by done. apply Hdom. by eexists.
Qed.

Lemma emitted_record_is_draft_witness :
  let w := mkWorld draft_with_extra_key ∅ [] [] 0 in
  exists record,
    emitted (onSubmit three_calls w).2
      = (emitted w ++ [("formSubmitted", record)])%list /\
    (forall k,
       record !! k =
         if decide (k ∈ schema.*1)
         then with_id [0%Z; 255%Z] (state w) !! k else None) /\
    ((forall k, is_Some (state w !! k) -> k ∈ schema.*1) ->
     record = with_id [0%Z; 255%Z] (state w)).
Proof.
  apply (emitted_record_is_draft three_calls
           (mkWorld draft_with_extra_key ∅ [] [] 0) [0%Z; 255%Z]).
  - reflexivity.
  - vm_compute. reflexivity.
Defined.

(** The error map of a failed submission is never empty and has no
    entry to spare: a key is in it exactly when it is a field of the
    schema, other than [uniqueId], whose validator rejects the draft's
    value. *)
Theorem error_entries_exact rng w rnds :
  rng (uuid_calls w) = Some rnds ->
  fails_validation (with_id rnds (state w)) ->
  let w' := (onSubmit rng w).2 in
  errors w' <> ∅ /\
  forall f,
    is_Some (errors w' !! f) <->
    exists t, (f, t) ∈ schema /\ f <> "uniqueId" /\
              Zod._parse t [f] (get (state w) f) <> [].
Proof.
  intros Hrng Hbad w'. subst w'.
  rewrite (onSubmit_invalid rng w rnds Hrng Hbad). cbn [snd errors].
  assert (forall f,
    is_Some (reduce_errors (Zod.object_issues schema (with_id rnds (state w))) !! f)
    <-> exists t, (f, t) ∈ schema /\ f <> "uniqueId" /\
                  Zod._parse t [f] (get (state w) f) <> []) as Hiff.
  { intros f. rewrite entry_iff_rejected. split.
    - intros (t & Hin & Hrej). exists t. split; [done|].
      destruct (decide (f = "uniqueId")) as [->|Hne].
      + exfalso. apply Hrej. rewrite (uniqueId_validator t Hin).
        unfold with_id. by rewrite get_insert_eq.
      + split; [done|]. unfold with_id in Hrej. by rewrite get_insert_ne in Hrej.
    - intros (t & Hin & Hne & Hrej). exists t. split; [done|].
      unfold with_id. by rewrite get_insert_ne. }
  split; [|exact Hiff].
  intros Hempty. apply Hbad. apply object_issues_nil. intros k t Hin.
  destruct (Zod._parse t [k] (get (with_id rnds (state w)) k)) eqn:Hp; [done|].
  exfalso.
  assert (is_Some (reduce_errors
            (Zod.object_issues schema (with_id rnds (state w))) !! k)) as [m Hm].
  { apply entry_iff_rejected. exists t. split; [done|]. by rewrite Hp. }
  rewrite Hempty, lookup_empty in Hm. discriminate.
Qed.

Lemma error_entries_exact_witness :
  let w' := (onSubmit three_calls initial_world).2 in
  errors w' <> ∅ /\
  forall f,
    is_Some (errors w' !! f) <->
    exists t, (f, t) ∈ schema /\ f <> "uniqueId" /\
              Zod._parse t [f] (get (state initial_world) f) <> [].
Proof.
  apply (error_entries_exact three_calls initial_world [0%Z; 255%Z]).
  - reflexivity.
  - vm_compute. discriminate.
Defined.

(** ** What a session does to the world *)

Section Effects.

Variable rng : nat -> option (list Z).

Lemma step_effects a w :
  let w' := (step rng a w).2 in
  uuid_calls w' = uuid_calls w + (if is_submit a then 1 else 0) /\
  exists new,
    emitted w' = (emitted w ++ new)%list /\
    length new <= (if is_submit a then 1 else 0) /\
    Forall (fun e => e.1 = "formSubmitted") new.
Proof.
  destruct a as [field value|field value|]; cbn [step is_submit].
  - cbn. split; [lia|]. exists []. rewrite app_nil_r. by repeat split.
  - cbn. split; [lia|]. exists []. rewrite app_nil_r. by repeat split.
  - destruct (rng (uuid_calls w)) as [rnds|] eqn:Hrng.
    + destruct (Zod.object_issues schema (with_id rnds (state w))) eqn:Hiss.
      * rewrite (onSubmit_valid rng w rnds Hrng Hiss).
        cbn [snd uuid_calls emitted]. split; [lia|].
        eexists. split; [reflexivity|]. split; [cbn [length]; lia|].
        by repeat constructor.
      * rewrite (onSubmit_invalid rng w rnds Hrng);
          [|unfold fails_validation; by rewrite Hiss].
        cbn [snd uuid_calls emitted]. split; [lia|].
        exists []. rewrite app_nil_r.
        split; [done|]. split; [cbn [length]; lia|constructor].
    + rewrite (onSubmit_generator_throws rng w Hrng).
      cbn [snd uuid_calls emitted]. split; [lia|].
      exists []. rewrite app_nil_r.
      split; [done|]. split; [cbn [length]; lia|constructor].
Qed.

End Effects.

(** Over a whole session the identifier generator is called exactly once
    per submission, edits never call it; the events emitted before stay,
    at most one is added per submission, and every added event is a
    [formSubmitted]. *)
Theorem session_effects rng acts w :
  let w' := session rng acts w in
  uuid_calls w' = uuid_calls w + count_submits acts /\
  exists new,
    emitted w' = (emitted w ++ new)%list /\
    length new <= count_submits acts /\
    Forall (fun e => e.1 = "formSubmitted") new.
Proof.
  revert w. induction acts as [|a acts IH]; intros w.
  { cbn. split; [lia|]. exists []. rewrite app_nil_r. by repeat split. }
  cbn [session]. cbv zeta.
  destruct (step_effects rng a w) as (Hc & new1 & He1 & Hl1 & Hn1).
  destruct (IH (step rng a w).2) as (Hc' & new2 & He2 & Hl2 & Hn2).
  assert (count_submits (a :: acts)
          = (if is_submit a then 1 else 0) + count_submits acts) as Hcount.
  { unfold count_submits. rewrite filter_cons.
    destruct (is_submit a); case_decide; try done; cbn; lia. }
  split; [rewrite Hc', Hc, Hcount; lia|].
  exists (new1 ++ new2)%list. split; [|split].
  - rewrite He2, He1. by rewrite app_assoc.
  - rewrite length_app, Hcount. lia.
  - by apply Forall_app.
Qed.

(** The error map changes in one way only: a submission whose
    validation fails replaces it.  A click on a star, an edit of a field,
    a submission that succeeds and a submission whose generator throws
    all leave it as it is, stale entries included. *)
Theorem errors_change_only_on_failure rng a w :
  let w' := (step rng a w).2 in
  errors w' = errors w \/
  (a = ASubmit /\
   exists rnds,
     rng (uuid_calls w) = Some rnds /\
     fails_validation (with_id rnds (state w)) /\
     errors w' = reduce_errors (Zod.object_issues schema (with_id rnds (state w)))).
Proof.
  destruct a as [field value|field value|]; cbn [step]; [by left|by left|].
  destruct (rng (uuid_calls w)) as [rnds|] eqn:Hrng.
  - destruct (Zod.object_issues schema (with_id rnds (state w))) eqn:Hiss.
    + left. by rewrite (onSubmit_valid rng w rnds Hrng Hiss).
    + right. split; [done|]. exists rnds.
      assert (fails_validation (with_id rnds (state w))) as Hbad
        by (unfold fails_validation; by rewrite Hiss).
      split; [done|]. split; [done|].
      rewrite (onSubmit_invalid rng w rnds Hrng Hbad). cbn [snd errors].
      by rewrite Hiss.
  - left. by rewrite (onSubmit_generator_throws rng w Hrng).
Qed.

(** ** [setRating] *)

Lemma num_lt_of_Z a b : num_lt (of_Z a) b = (a <? b)%Z.
Proof.
  unfold num_lt, of_Z, Qcompare. cbn. rewrite !Z.mul_1_r.
  unfold Z.ltb. by destruct (a ?= b)%Z.
Qed.

Lemma in_range_of_Z k : (1 <= k <= 5)%Z -> in_range (of_Z k).
Proof.
  intros [H1 H5]. unfold in_range, of_Z.
  split; [change 1%Q with (inject_Z 1) | change 5%Q with (inject_Z 5)];
    by rewrite <- Zle_Qle.
Qed.

Lemma rating_field_validator f : f ∈ rating_fields -> (f, rating) ∈ schema.
Proof.
  intros Hf. unfold rating_fields in Hf.
  repeat (apply elem_of_cons in Hf as [->|Hf];
          [unfold schema, rating;
           repeat first [apply list_elem_of_here | apply list_elem_of_further]|]).
  by apply elem_of_nil in Hf.
Qed.

Lemma rating_field_not_id f : f ∈ rating_fields -> f <> "uniqueId".
Proof.
  intros Hf ->. unfold rating_fields in Hf.
  repeat (apply elem_of_cons in Hf as [Hf|Hf]; [discriminate Hf|]).
  by apply elem_of_nil in Hf.
Qed.

(** A field that its validator rejects is reported and nothing is
    emitted. *)
Lemma rejected_field_reported rng w rnds k t :
  rng (uuid_calls w) = Some rnds ->
  (k, t) ∈ schema -> k <> "uniqueId" ->
  Zod._parse t [k] (get (state w) k) <> [] ->
  is_Some (errors (onSubmit rng w).2 !! k) /\
  emitted (onSubmit rng w).2 = emitted w.
Proof.
  intros Hrng Hin Hk Hrej.
  assert (get (with_id rnds (state w)) k = get (state w) k) as Hget
    by (unfold with_id; by rewrite get_insert_ne).
  assert (fails_validation (with_id rnds (state w))) as Hbad.
  { intros Hok. apply Hrej. rewrite <- Hget.
    by apply (proj1 (object_issues_nil schema _) Hok). }
  rewrite (onSubmit_invalid rng w rnds Hrng Hbad). cbn [snd errors emitted].
  split; [|done]. apply entry_iff_rejected. exists t. by rewrite Hget.
Qed.

(** [setRating] writes the number it is given into a rating field
    without looking at it; the value is judged at the next submission.
    If it lies between 1 and 5, the rebuilt error map of a failing
    submission has no entry for the field; if it does not (7, 0, [NaN],
    an infinity), the submission fails, nothing is emitted and the field
    has its entry. *)
Theorem rating_judged_at_submit rng w f n rnds :
  f ∈ rating_fields ->
  rng (uuid_calls w) = Some rnds ->
  let w1 := (setRating f n w).2 in
  let w2 := (onSubmit rng w1).2 in
  state w1 !! f = Some (VNum n) /\
  (in_range n -> fails_validation (with_id rnds (state w1)) ->
   errors w2 !! f = None) /\
  (~ in_range n -> is_Some (errors w2 !! f) /\ emitted w2 = emitted w).
Proof.
  intros Hf Hrng w1 w2.
  pose proof (rating_field_validator f Hf) as Hin.
  pose proof (rating_field_not_id f Hf) as Hne.
  assert (state w1 !! f = Some (VNum n)) as Hst
    by (subst w1; cbn; apply lookup_insert_eq).
  assert (get (state w1) f = VNum n) as Hget by (unfold get; by rewrite Hst).
  split; [done|]. split.
  - intros Hr Hbad. subst w2.
    rewrite (onSubmit_invalid rng w1 rnds Hrng Hbad). cbn [snd errors].
    rewrite (error_entry _ f rating Hin).
    unfold with_id. rewrite get_insert_ne by done. rewrite Hget.
    assert (Zod._parse rating [f] (VNum n) = []) as ->; [|done].
    apply rating_accepts. right. by exists n.
  - intros Hout. subst w2.
    apply (rejected_field_reported rng w1 rnds f rating); [done|done|done|].
    rewrite Hget. intros Hok. apply Hout.
    apply rating_accepts in Hok as [?|(n' & [= <-] & ?)]; [discriminate|done].
Qed.

Lemma rating_judged_at_submit_witness :
  let w1 := (setRating "safety" (of_Z 7) initial_world).2 in
  let w2 := (onSubmit three_calls w1).2 in
  state w1 !! "safety" = Some (VNum (of_Z 7)) /\
  (in_range (of_Z 7) -> fails_validation (with_id [0%Z; 255%Z] (state w1)) ->
   errors w2 !! "safety" = None) /\
  (~ in_range (of_Z 7) ->
   is_Some (errors w2 !! "safety") /\ emitted w2 = emitted initial_world).
Proof.
  apply (rating_judged_at_submit three_calls initial_world "safety" (of_Z 7)
           [0%Z; 255%Z]).
  - do 1 right. left.
  - reflexivity.
Defined.

(** [setRating] does not check that its field is a rating.  Called with
    one of the other fields of the form, it puts a number where the
    schema wants a string, one of the listed sexes or a boolean, and the
    next submission fails on that field. *)
Theorem setRating_any_field rng w f n rnds :
  f ∈ other_fields ->
  rng (uuid_calls w) = Some rnds ->
  let w1 := (setRating f n w).2 in
  let w2 := (onSubmit rng w1).2 in
  state w1 !! f = Some (VNum n) /\
  is_Some (errors w2 !! f) /\ emitted w2 = emitted w.
Proof.
  intros Hf Hrng w1 w2.
  assert (state w1 !! f = Some (VNum n)) as Hst
    by (subst w1; cbn; apply lookup_insert_eq).
  assert (get (state w1) f = VNum n) as Hget by (unfold get; by rewrite Hst).
  split; [done|]. subst w2.
  unfold other_fields in Hf.
  repeat (apply elem_of_cons in Hf as [->|Hf];
    [eapply (rejected_field_reported rng w1 rnds);
       [done
       |unfold schema;
        repeat first [apply list_elem_of_here | apply list_elem_of_further]
       |discriminate
       |rewrite Hget; destruct n; discriminate]|]).
  by apply elem_of_nil in Hf.
Qed.

Lemma setRating_any_field_witness :
  let w1 := (setRating "schoolName" (of_Z 3) initial_world).2 in
  let w2 := (onSubmit three_calls w1).2 in
  state w1 !! "schoolName" = Some (VNum (of_Z 3)) /\
  is_Some (errors w2 !! "schoolName") /\ emitted w2 = emitted initial_world.
Proof.
  apply (setRating_any_field three_calls initial_world "schoolName" (of_Z 3)
           [0%Z; 255%Z]).
  - left.
  - reflexivity.
Defined.

(** ** The stars of a rating *)

Lemma star_le_of_Z n k : star_le n (of_Z k) = (n <=? k)%Z.
Proof.
  change (star_le n (of_Z k)) with (negb (num_lt (of_Z k) n)).
  rewrite num_lt_of_Z. apply eq_sym, Z.leb_antisym.
Qed.

Lemma star_gt_of_Z n k : star_gt n (of_Z k) = (k <? n)%Z.
Proof. apply num_lt_of_Z. Qed.

Lemma star_binding_found f :
  f ∈ star_fields ->
  exists i b,
    list_find (fun fb => fb.1 = f) star_bindings = Some (i, (f, b)) /\
    not_yellow b.
Proof.
  intros Hf. unfold star_fields in Hf.
  repeat (apply elem_of_cons in Hf as [->|Hf];
          [do 2 eexists; split; [vm_compute; reflexivity|cbn; done]|]).
  by apply elem_of_nil in Hf.
Qed.

Lemma classes_of_rated b n k :
  not_yellow b ->
  length (star_classes b n (Some (of_Z k))) = 1 /\
  ("text-yellow-500" ∈ star_classes b n (Some (of_Z k)) <-> (n <= k)%Z).
Proof.
  intros Hb.
  destruct b as [|otherwise]; cbn [star_classes or_zero star_le_field];
    rewrite ?star_gt_of_Z, star_le_of_Z.
  - destruct (Z.leb_spec n k) as [Hle|Hgt].
    + rewrite (proj2 (Z.ltb_ge k n)) by lia. cbn. split; [done|].
      split; [done|]. intros _. left.
    + rewrite (proj2 (Z.ltb_lt k n)) by lia. cbn. split; [done|].
      split; [|lia]. intros H. apply list_elem_of_singleton in H. discriminate.
  - split; [done|]. destruct (Z.leb_spec n k) as [Hle|Hgt].
    + split; [done|]. intros _. left.
    + split; [|lia]. intros H. apply list_elem_of_singleton in H.
      cbn in Hb. congruence.
Qed.

Lemma classes_of_unset b n :
  not_yellow b -> (1 <= n)%Z ->
  length (star_classes b n None) = 1 /\
  "text-yellow-500" ∉ star_classes b n None.
Proof.
  intros Hb Hn.
  destruct b as [|otherwise]; cbn [star_classes or_zero star_le_field].
  - rewrite star_gt_of_Z, star_le_of_Z.
    rewrite (proj2 (Z.leb_gt n 0)) by lia.
    rewrite (proj2 (Z.ltb_lt 0 n)) by lia. cbn. split; [done|].
    intros H. apply list_elem_of_singleton in H. discriminate.
  - split; [done|]. intros H. apply list_elem_of_singleton in H.
    cbn in Hb. congruence.
Qed.

(** After a click on star [k] of a rating, each star of that row has
    exactly one class, and star [n] is yellow exactly when [n <= k]: the
    row shows the rating that was clicked.  While a rating is not set,
    each star of its row has exactly one class and none is yellow. *)
Theorem stars_show_rating w f k n :
  f ∈ star_fields -> (1 <= k <= 5)%Z -> (1 <= n <= 5)%Z ->
  (exists cs,
     star_of (state (setRating f (of_Z k) w).2) f n = Some cs /\
     length cs = 1 /\ ("text-yellow-500" ∈ cs <-> (n <= k)%Z)) /\
  (get (state w) f = VUndefined ->
   exists cs,
     star_of (state w) f n = Some cs /\
     length cs = 1 /\ "text-yellow-500" ∉ cs).
Proof.
  intros Hf Hk Hn.
  destruct (star_binding_found f Hf) as (i & b & Hfind & Hb).
  split.
  - unfold star_of. rewrite Hfind. cbn [setRating set_state modify snd state].
    rewrite get_insert_eq. cbn [as_rating fmap option_fmap option_map].
    eexists. split; [reflexivity|]. by apply classes_of_rated.
  - intros Hunset. unfold star_of. rewrite Hfind, Hunset.
    cbn [as_rating fmap option_fmap option_map].
    eexists. split; [reflexivity|]. apply classes_of_unset; [done|lia].
Qed.

Lemma stars_show_rating_witness :
  (exists cs,
     star_of (state (setRating "safety" (of_Z 3) initial_world).2) "safety" 2
       = Some cs /\
     length cs = 1 /\ ("text-yellow-500" ∈ cs <-> (2 <= 3)%Z)) /\
  (get (state initial_world) "safety" = VUndefined ->
   exists cs,
     star_of (state initial_world) "safety" 2 = Some cs /\
     length cs = 1 /\ "text-yellow-500" ∉ cs).
Proof.
  apply (stars_show_rating initial_world "safety" 3 2).
  - right. left.
  - lia.
  - lia.
Defined.

(** ** What the controls of the form can do *)

Lemma is_a_name f :
  f ∈ ["schoolName"; "nationality"] <-> f = "schoolName" \/ f = "nationality".
Proof.
  rewrite !elem_of_cons. split; [intros [?|[?|H]]|intros [?|?]]; auto.
  by apply elem_of_nil in H.
Qed.

Lemma only_names_set d k v :
  only_names_can_fail d ->
  (forall t, (k, t) ∈ schema -> k ∉ ["schoolName"; "nationality"] ->
             Zod._parse t [k] v = []) ->
  only_names_can_fail (<[k := v]> d).
Proof.
  intros Hd Hv k' t' Hin Hnot.
  destruct (decide (k' = k)) as [->|Hne].
  - rewrite get_insert_eq. by apply Hv.
  - rewrite get_insert_ne by done. by apply Hd.
Qed.

Lemma set_state_invariant w k v :
  form_invariant w ->
  (forall t, (k, t) ∈ schema -> k ∉ ["schoolName"; "nationality"] ->
             Zod._parse t [k] v = []) ->
  form_invariant (set_state k v w).2.
Proof.
  intros [Hd He] Hv. split; [by apply only_names_set|exact He].
Qed.

Lemma pick_invariant w k options i :
  form_invariant w ->
  (forall v t, v ∈ options -> (k, t) ∈ schema ->
               k ∉ ["schoolName"; "nationality"] -> Zod._parse t [k] v = []) ->
  form_invariant (pick k options i w).2.
Proof.
  intros Hw Hv. unfold pick. destruct (options !! i) as [v|] eqn:Hi; [|done].
  apply set_state_invariant; [done|]. intros t. apply Hv.
  apply list_elem_of_lookup. by exists i.
Qed.

Lemma onSubmit_invariant rng w :
  form_invariant w -> form_invariant (onSubmit rng w).2.
Proof.
  intros [Hd He].
  assert (forall rnds, only_names_can_fail (with_id rnds (state w))) as Hid.
  { intros rnds. apply only_names_set; [done|].
    intros t Hin _. by rewrite (uniqueId_validator t Hin). }
  destruct (rng (uuid_calls w)) as [rnds|] eqn:Hrng.
  - destruct (Zod.object_issues schema (with_id rnds (state w))) eqn:Hiss.
    + rewrite (onSubmit_valid rng w rnds Hrng Hiss).
      split; [apply Hid|exact He].
    + rewrite (onSubmit_invalid rng w rnds Hrng);
        [|unfold fails_validation; by rewrite Hiss].
      split; [apply Hid|]. cbn [snd errors]. intros f Hf.
      apply entry_iff_rejected in Hf as (t & Hin & Hrej).
      destruct (decide (f ∈ ["schoolName"; "nationality"])) as [Hn|Hn].
      * by apply is_a_name.
      * exfalso. apply Hrej. by apply Hid.
  - rewrite (onSubmit_generator_throws rng w Hrng).
    split; [exact Hd|exact He].
Qed.

Lemma handle_invariant rng schools nationalities ev w :
  form_invariant w -> form_invariant (handle rng schools nationalities ev w).2.
Proof.
  intros Hw. destruct ev as [i|i|i|checked|i|text|f n|text|]; cbn [handle].
  - apply pick_invariant; [done|]. intros v t _ _ Hnot.
    exfalso. apply Hnot. left.
  - apply pick_invariant; [done|]. intros v t Hv Hin _.
    schema_cases Hin. unfold sex_options in Hv.
    repeat (apply elem_of_cons in Hv as [->|Hv]; [reflexivity|]).
    by apply elem_of_nil in Hv.
  - apply pick_invariant; [done|]. intros v t _ _ Hnot.
    exfalso. apply Hnot. right. left.
  - unfold toggle.
    destruct (get (state w) "currentStudent") as [| | | | |[]]; try done;
      (apply set_state_invariant; [done|]);
      intros t Hin _; schema_cases Hin; reflexivity.
  - apply pick_invariant; [done|]. intros v t Hv Hin _.
    schema_cases Hin. unfold yearOfStudy_options in Hv.
    repeat (apply elem_of_cons in Hv as [->|Hv]; [reflexivity|]).
    by apply elem_of_nil in Hv.
  - apply set_state_invariant; [done|].
    intros t Hin _. schema_cases Hin. reflexivity.
  - destruct (bool_decide (f ∈ star_fields)) eqn:Hf; [|done].
    destruct (1 <=? n)%nat eqn:H1; [|done].
    destruct (n <=? 5)%nat eqn:H5; [|done]. cbn [andb].
    apply bool_decide_eq_true in Hf.
    apply Nat.leb_le in H1. apply Nat.leb_le in H5.
    apply set_state_invariant; [done|]. intros t Hin _.
    assert ((f, rating) ∈ schema) as Hr by (by apply rating_field_validator).
    assert (t = rating) as ->.
    { pose proof schema_keys_NoDup as Hnd.
      apply list_elem_of_lookup in Hin as [i Hi].
      apply list_elem_of_lookup in Hr as [j Hj].
      assert (i = j) as ->; [|congruence].
      eapply NoDup_lookup; [exact Hnd| |];
        rewrite list_lookup_fmap; [by rewrite Hi|by rewrite Hj]. }
    apply rating_accepts. right. eexists. split; [reflexivity|].
    apply in_range_of_Z. lia.
  - apply set_state_invariant; [done|].
    intros t Hin _. schema_cases Hin. reflexivity.
  - by apply onSubmit_invariant.
Qed.

Lemma initial_invariant : form_invariant initial_world.
Proof.
  split.
  - intros k t Hin Hnot. schema_cases Hin; try (vm_compute; reflexivity);
      exfalso; apply Hnot; [left|right; left].
  - intros f [m Hm]. cbn in Hm. rewrite lookup_empty in Hm. discriminate.
Qed.

Lemma use_form_invariant rng schools nationalities evs w :
  form_invariant w -> form_invariant (use_form rng schools nationalities evs w).
Proof.
  revert w. induction evs as [|ev evs IH]; intros w Hw; [done|].
  cbn [use_form]. apply IH. by apply handle_invariant.
Qed.

(** Whatever the user does with the controls of the form, in whatever
    order and with whatever datasets behind the two lists, every field
    but [schoolName] and [nationality] holds a value its validator
    accepts, and the error map never has an entry for any other field. *)
Theorem only_names_ever_reported rng schools nationalities evs :
  let w := use_form rng schools nationalities evs initial_world in
  only_names_can_fail (state w) /\
  forall f, is_Some (errors w !! f) -> f = "schoolName" \/ f = "nationality".
Proof.
  apply (use_form_invariant rng schools nationalities evs initial_world).
  apply initial_invariant.
Qed.

(** For a draft the user has produced with the controls of the form, the
    schema accepts the submission exactly when [schoolName] and
    [nationality] hold non-empty strings; then, if the generator returns,
    the record is emitted. *)
Theorem form_accepts_iff_names rng schools nationalities evs rnds :
  let w := use_form rng schools nationalities evs initial_world in
  (accepts (with_id rnds (state w)) <->
   nonempty_string (get (state w) "schoolName") /\
   nonempty_string (get (state w) "nationality")) /\
  (rng (uuid_calls w) = Some rnds ->
   nonempty_string (get (state w) "schoolName") ->
   nonempty_string (get (state w) "nationality") ->
   emits_record rng w rnds).
Proof.
  intros w.
  destruct (use_form_invariant rng schools nationalities evs initial_world
              initial_invariant) as [Hd _]. fold w in Hd.
  assert (only_names_can_fail (with_id rnds (state w))) as Hid.
  { apply only_names_set; [done|].
    intros t Hin _. by rewrite (uniqueId_validator t Hin). }
  assert (forall k, k <> "uniqueId" ->
            get (with_id rnds (state w)) k = get (state w) k) as Hget
    by (intros k Hk; unfold with_id; by rewrite get_insert_ne).
  assert (accepts (with_id rnds (state w)) <->
          nonempty_string (get (state w) "schoolName") /\
          nonempty_string (get (state w) "nationality")) as Hiff.
  { unfold accepts. rewrite object_issues_nil.
    rewrite <- (Hget "schoolName"), <- (Hget "nationality") by discriminate.
    split.
    - intros H. split.
      + apply (nonempty_string_accepts "School name is required" ["schoolName"]).
        apply H. right. left.
      + apply (nonempty_string_accepts "Nationality is required" ["nationality"]).
        apply H. do 3 right. left.
    - intros [Hs Hn] k t Hin.
      destruct (decide (k ∈ ["schoolName"; "nationality"])) as [Hk|Hk];
        [|by apply Hid].
      apply is_a_name in Hk as [-> | ->]; schema_cases Hin;
        by apply nonempty_string_accepts. }
  split; [exact Hiff|].
  intros Hrng Hs Hn. apply accepted_is_emitted; [done|]. by apply Hiff.
Qed.

Lemma only_names_ever_reported_witness :
  let w := use_form three_calls one_school one_nationality a_visit initial_world in
  only_names_can_fail (state w) /\
  forall f, is_Some (errors w !! f) -> f = "schoolName" \/ f = "nationality".
Proof.
  apply (only_names_ever_reported three_calls one_school one_nationality a_visit).
Defined.

Lemma form_accepts_iff_names_witness :
  let w := use_form three_calls one_school one_nationality a_visit initial_world in
  length (emitted w) = 1 /\ emits_record three_calls w [1%Z; 255%Z].
Proof.
  split; [vm_compute; reflexivity|].
  apply (proj2 (form_accepts_iff_names three_calls one_school one_nationality
                  a_visit [1%Z; 255%Z])).
  - reflexivity.
  - exists "Acme University". split; [vm_compute; reflexivity|discriminate].
  - exists "Dutch". split; [vm_compute; reflexivity|discriminate].
Defined.

(** ** The console *)

Lemma step_console rng a w e0 :
  (console w = [] /\ errors w = e0) \/
    last (console w) = Some ("Validation Errors:", errors w) ->
  let w' := (step rng a w).2 in
  (console w' = [] /\ errors w' = e0) \/
    last (console w') = Some ("Validation Errors:", errors w').
Proof.
  intros Hw. destruct a as [field value|field value|]; cbn [step];
    [exact Hw|exact Hw|].
  destruct (rng (uuid_calls w)) as [rnds|] eqn:Hrng.
  - destruct (Zod.object_issues schema (with_id rnds (state w))) eqn:Hiss.
    + by rewrite (onSubmit_valid rng w rnds Hrng Hiss).
    + rewrite (onSubmit_invalid rng w rnds Hrng);
        [|unfold fails_validation; by rewrite Hiss].
      right. cbn [snd console errors]. apply last_snoc.
  - by rewrite (onSubmit_generator_throws rng w Hrng).
Qed.

(** Starting with an empty console, a session either logs nothing and
    leaves the error map as it was, or the last thing it logged is the
    error map as it stands at the end: what the console shows last is
    what the form displays. *)
Theorem console_shows_current_errors rng acts w :
  console w = [] ->
  let w' := session rng acts w in
  (console w' = [] /\ errors w' = errors w) \/
  last (console w') = Some ("Validation Errors:", errors w').
Proof.
  intros Hc.
  assert (forall acts w0,
            (console w0 = [] /\ errors w0 = errors w) \/
              last (console w0) = Some ("Validation Errors:", errors w0) ->
            (console (session rng acts w0) = [] /\
             errors (session rng acts w0) = errors w) \/
              last (console (session rng acts w0))
              = Some ("Validation Errors:", errors (session rng acts w0))) as H.
  { clear acts. intros acts. induction acts as [|a acts IH]; intros w0 Hw0.
    - exact Hw0.
    - cbn [session]. apply IH. by apply step_console. }
  apply H. by left.
Qed.

Lemma console_shows_current_errors_witness :
  let w' := session three_calls two_submissions initial_world in
  (console w' = [] /\ errors w' = errors initial_world) \/
  last (console w') = Some ("Validation Errors:", errors w').
Proof.
  apply (console_shows_current_errors three_calls two_submissions initial_world).
  reflexivity.
Defined.
